(** * MulticlassFCN: the stroma/epithelia notebook

    A shallow embedding of the original logic of [stroma-epithelia.ipynb]:
    the channel statistics cell (per-image mean/std tables and their
    aggregation), the label / one-hot mask encoding it relies on, and the
    notebook's global namespace as its cells read and rebind it. *)

From Stdlib Require Import ZArith List Reals Lra Lia Bool Sorted.
From stdpp Require Import base list strings gmap.
Import ListNotations.

(** ** Exceptions and results *)

(** The Python exceptions the modelled code can raise.  [ValueError] is
    numpy's broadcast failure, [IndexError] an out-of-range row assignment,
    [NameError] the read of an unbound notebook global, [TypeError] the use
    of a global at the wrong type.  The last two are the error names of the
    specification. *)
Inductive exn : Type :=
| ValueError
| IndexError
| NameError
| TypeError
| InvalidInputError
| UnrecognizedLabelError.

Inductive result (A : Type) : Type :=
| Ok (a : A)
| Raise (e : exn).
Arguments Ok {A} a.
Arguments Raise {A} e.

#[global] Instance result_bind : MBind result :=
  fun A B (k : A -> result B) (r : result A) =>
    match r with
    | Ok a => k a
    | Raise e => Raise e
    end.

Definition raises {A} (r : result A) : Prop := exists e, r = Raise e.

(** ** numpy in exact arithmetic *)

Module Numpy.

(** A float64 scalar with the rounding left out: a real number, or NaN.
    NaN only ever arises as 0/0, the mean of an empty slice. *)
Inductive f64 : Type :=
| Num (r : R)
| NaN.

Definition fadd (a b : f64) : f64 :=
  match a, b with
  | Num x, Num y => Num (x + y)
  | _, _ => NaN
  end.

Definition fsub (a b : f64) : f64 :=
  match a, b with
  | Num x, Num y => Num (x - y)
  | _, _ => NaN
  end.

Definition fmul (a b : f64) : f64 :=
  match a, b with
  | Num x, Num y => Num (x * y)
  | _, _ => NaN
  end.

Definition fsqrt (a : f64) : f64 :=
  match a with
  | Num x => Num (sqrt x)
  | NaN => NaN
  end.

(** [sum / count] as numpy's reductions divide: the sum of no elements is
    0.0 and 0.0 / 0 is NaN (with a RuntimeWarning, not an exception). *)
Definition fdiv_count (a : f64) (count : nat) : f64 :=
  match a, count with
  | Num x, S _ => Num (x / INR count)
  | _, _ => NaN
  end.

Definition fsum (xs : list f64) : f64 := fold_left fadd xs (Num 0).

(** [np.mean] of a flat slice. *)
Definition np_mean (xs : list f64) : f64 := fdiv_count (fsum xs) (length xs).

(** [np.std] of a flat slice (ddof = 0): the square root of the mean of the
    squared deviations from the mean. *)
Definition np_std (xs : list f64) : f64 :=
  let arrmean := np_mean xs in
  let x := map (fun a => fsub a arrmean) xs in
  fsqrt (np_mean (map (fun d => fmul d d) x)).

(** What [imread] hands back: a uint8 array of shape (h, w) for a greyscale
    file, of shape (h, w, c) otherwise; the pixel function is only read
    inside the shape. *)
Inductive image : Type :=
| Gray (h w : nat) (px : nat -> nat -> Z)
| Color (h w c : nat) (px : nat -> nat -> nat -> Z).

(** The h*w entries of one plane, row by row, cast to float64. *)
Definition plane (h w : nat) (f : nat -> nat -> Z) : list f64 :=
  flat_map (fun y => map (fun x => Num (IZR (f y x))) (seq 0 w)) (seq 0 h).

(** The result of reducing an image over axes (0, 1): a 0-d scalar for a
    2-d input, a vector of length c for a 3-d one. *)
Inductive reduced : Type :=
| Scalar (v : f64)
| Vector (vs : list f64).

Definition reduce_hw (op : list f64 -> f64) (img : image) : reduced :=
  match img with
  | Gray h w px => Scalar (op (plane h w px))
  | Color h w c px =>
      Vector (map (fun k => op (plane h w (fun y x => px y x k))) (seq 0 c))
  end.

(** [np.mean(img, axis=(0, 1))] and [np.std(img, axis=(0, 1))]. *)
Definition np_mean_hw : image -> reduced := reduce_hw np_mean.
Definition np_std_hw : image -> reduced := reduce_hw np_std.

(** A 2-d float64 array.  The column count is kept apart from the rows, as
    numpy keeps the shape (0, 3) of a table without rows. *)
Record table : Type := mkTable { ncols : nat; rows : list (list f64) }.

(** [np.zeros((n, m))] and [np.zeros_like]. *)
Definition np_zeros (n m : nat) : table :=
  mkTable m (repeat (repeat (Num 0) m) n).

Definition np_zeros_like (t : table) : table :=
  np_zeros (length (rows t)) (ncols t).

(** Broadcasting a reduced value to a row of [m] entries: a scalar and a
    vector of length 1 are repeated, a vector of length [m] is taken as it
    is, any other length is numpy's "could not broadcast input array". *)
Definition broadcast_row (m : nat) (v : reduced) : result (list f64) :=
  match v with
  | Scalar x => Ok (repeat x m)
  | Vector [x] => Ok (repeat x m)
  | Vector vs => if (length vs =? m)%nat then Ok vs else Raise ValueError
  end.

(** [t[i] = v] *)
Definition setitem (t : table) (i : nat) (v : reduced) : result table :=
  if (i <? length (rows t))%nat then
    row ← broadcast_row (ncols t) v;
    Ok (mkTable (ncols t) (<[i := row]> (rows t)))
  else Raise IndexError.

Definition column (k : nat) (t : table) : list f64 :=
  map (fun row => nth k row NaN) (rows t).

(** [np.mean(t, axis=0)] and [np.std(t, axis=0)]: one entry per column. *)
Definition np_mean_axis0 (t : table) : list f64 :=
  map (fun k => np_mean (column k t)) (seq 0 (ncols t)).

Definition np_std_axis0 (t : table) : list f64 :=
  map (fun k => np_std (column k t)) (seq 0 (ncols t)).

(** [np.unique(a, return_counts=True)] on the flattened array: the sorted
    distinct values, each with the number of times it occurs.  [count_in]
    files one more value into a sorted table of counts. *)
Fixpoint count_in (x : Z) (acc : list (Z * nat)) : list (Z * nat) :=
  match acc with
  | [] => [(x, 1)]
  | (y, c) :: rest =>
      if (x <? y)%Z then (x, 1) :: (y, c) :: rest
      else if (x =? y)%Z then (y, S c) :: rest
      else (y, c) :: count_in x rest
  end.

Definition unique_counts (flat : list Z) : list (Z * nat) :=
  foldr count_in [] flat.

Definition np_unique (a : list (list Z)) : list Z * list nat :=
  let counted := unique_counts (concat a) in
  (counted.*1, counted.*2).

End Numpy.

(** ** The channel statistics cell *)

Module Estimator.
Import Numpy.

(** The body of the [for i, img_name in enumerate(imgs_list)] loop, on the
    decoded image: two row assignments, the second not reached when the
    first raises. *)
Definition loop_body (i : nat) (img : image) (st : table * table)
  : result (table * table) :=
  np_means ← setitem st.1 i (np_mean_hw img);
  np_stds ← setitem st.2 i (np_std_hw img);
  Ok (np_means, np_stds).

Fixpoint for_enumerate (i : nat) (imgs : list image) (st : table * table)
  : result (table * table) :=
  match imgs with
  | [] => Ok st
  | img :: rest => st' ← loop_body i img st; for_enumerate (S i) rest st'
  end.

(** The cell "find means and stds of dataset".  [imgs_list] stands for the
    listed files as [imread] decodes them; the result is the pair
    [(channel_means, channel_stds)] the cell prints. *)
Definition find_means_stds (imgs_list : list image)
  : result (list f64 * list f64) :=
  let np_means := np_zeros (length imgs_list) 3 in
  let np_stds := np_zeros_like np_means in
  '(np_means, np_stds) ← for_enumerate 0 imgs_list (np_means, np_stds);
  let channel_means := np_mean_axis0 np_means in
  let channel_stds := np_std_axis0 np_stds in
  Ok (channel_means, channel_stds).

(** *** The estimator as the specification words it *)

(** A statistic of one image taken independently per colour channel, over
    height and width. *)
Definition per_channel (op : list f64 -> f64) (img : image) : list f64 :=
  match img with
  | Gray h w px => [op (plane h w px)]
  | Color h w c px =>
      map (fun k => op (plane h w (fun y x => px y x k))) (seq 0 c)
  end.

(** A statistic taken column by column over a table of [m] columns. *)
Definition column_wise (op : list f64 -> f64) (m : nat)
  (tbl : list (list f64)) : list f64 :=
  map (fun k => op (map (fun row => nth k row NaN) tbl)) (seq 0 m).

(** The two [num_images x num_channels] tables and their aggregation: the
    column-wise mean of the per-image means, the column-wise standard
    deviation of the per-image standard deviations. *)
Definition spec_means_table (imgs : list image) : list (list f64) :=
  map (per_channel np_mean) imgs.

Definition spec_stds_table (imgs : list image) : list (list f64) :=
  map (per_channel np_std) imgs.

Definition spec_channel_stats (imgs : list image) : list f64 * list f64 :=
  (column_wise np_mean 3 (spec_means_table imgs),
   column_wise np_std 3 (spec_stds_table imgs)).

(** The pooled alternative: one standard deviation per channel over the
    pixels of all images together. *)
Definition pooled (op : list f64 -> f64) (k : nat) (imgs : list image) : f64 :=
  op (flat_map (fun img =>
        match img with
        | Gray h w px => plane h w px
        | Color h w c px => plane h w (fun y x => px y x k)
        end) imgs).

(** An image with three colour channels. *)
Definition is_rgb (img : image) : bool :=
  match img with
  | Color _ _ 3 _ => true
  | _ => false
  end.

(** The channel count of an image; a 2-d greyscale array has the single
    channel of its values. *)
Definition channels (img : image) : nat :=
  match img with
  | Gray _ _ _ => 1
  | Color _ _ c _ => c
  end.

(** The images whose reduction numpy can assign to a row of three entries:
    those with one channel or three. *)
Definition broadcastable (img : image) : bool :=
  match img with
  | Gray _ _ _ => true
  | Color _ _ c _ => (c =? 1)%nat || (c =? 3)%nat
  end.

(** A non-empty three-channel image every entry of which is [v]. *)
Definition solid_color (v : Z) (img : image) : Prop :=
  match img with
  | Gray _ _ _ => False
  | Color h w c px =>
      c = 3 /\ 0 < h /\ 0 < w /\
      forall y x k, y < h -> x < w -> k < 3 -> px y x k = v
  end.

End Estimator.

(** ** Label masks and their one-hot encoding *)

Module Dataset.

(** A label mask is a 2-d integer array, held as the list of its rows; its
    encoding has one more axis, the channels of each pixel. *)
Definition mask : Type := list (list Z).
Definition onehot : Type := list (list (list Z)).

(** Modelled from the spec: the class [LabelToOnehot] of the module
    [dataset], which the notebook imports and whose source is not part of
    the notebook.  An instance is built from the ordered recognized labels
    and keeps them. *)
Record LabelToOnehot : Type := mkLabelToOnehot { lo_labels : list Z }.

(** Modelled from the spec: the membership test of the missing
    [__call__], "every pixel value in the mask must belong to the
    recognized label set". *)
Definition recognized (labels : list Z) (p : Z) : bool :=
  existsb (Z.eqb p) labels.

(** Modelled from the spec: the per-pixel output of the missing
    [__call__]; channel c is 1 if the pixel's label is the c-th recognized
    label, else 0. *)
Definition encode_pixel (labels : list Z) (p : Z) : list Z :=
  map (fun l => if (p =? l)%Z then 1%Z else 0%Z) labels.

(** Modelled from the spec: [LabelToOnehot.__call__], missing with the
    class.  Every pixel of the mask must belong to the recognized labels,
    else UnrecognizedLabelError; the output has shape
    [height, width, number_of_labels]. *)
Definition call (self : LabelToOnehot) (m : mask) : result onehot :=
  if forallb (forallb (recognized (lo_labels self))) m
  then Ok (map (map (encode_pixel (lo_labels self))) m)
  else Raise UnrecognizedLabelError.

(** Decoding, as the specification words the round trip: the index of the
    active channel, mapped back through the label set. *)
Fixpoint active_channel (chans : list Z) : option nat :=
  match chans with
  | [] => None
  | c :: rest => if (c =? 1)%Z then Some 0 else S <$> active_channel rest
  end.

Definition decode_pixel (labels : list Z) (chans : list Z) : option Z :=
  i ← active_channel chans; labels !! i.

Definition decode (labels : list Z) (oh : onehot) : option mask :=
  mapM (mapM (decode_pixel labels)) oh.

(** The constraint on the input: every pixel value of the mask belongs to
    the recognized labels. *)
Definition labels_recognized (labels : list Z) (m : mask) : Prop :=
  forall row p, row ∈ m -> p ∈ row -> p ∈ labels.

(** The channels of the pixel at row [y], column [x]. *)
Definition pixel_at {A : Type} (a : list (list A)) (y x : nat) : option A :=
  row ← a !! y; row !! x.

End Dataset.

(** ** The notebook's namespace and cells *)

Module Notebook.
Import Numpy Dataset.

(** The values the tracked names are bound to.  Only the names that carry
    label information are tracked, with the crop size and the loaders they
    are built with; the normalization constants, the optimizer and the
    plots do not touch them. *)
Inductive value : Type :=
| VInt (n : nat)
| VTuple (xs : list Z)
| VArray (xs : list Z)
| VCounts (cs : list nat)
| VMask (m : mask)
| VOnehot (oh : onehot)
| VTransform (t : LabelToOnehot)
| VPipeline (crop : nat) (t : LabelToOnehot)
| VDataset (labels : value) (mask_transforms : value)
| VLoader (dataset : value)
| VModel (n_class : nat).

(** What the run hands to the outside: the lines printed by the inspection
    loop and the arguments of [visualize_model]. *)
Inductive event : Type :=
| PrintLabel (l : Z) (lc : nat)
| VisualizeModel (fcn_model : value) (dataloaders : value) (labels : value).

Record state : Type := mkState { ns : gmap string value; out : list event }.

Definition bind_name (name : string) (v : value) (s : state) : state :=
  mkState (<[name := v]> (ns s)) (out s).

Definition emit (es : list event) (s : state) : state :=
  mkState (ns s) (out s ++ es).

(** Reading a global: NameError when it is unbound. *)
Definition read (name : string) (s : state) : result value :=
  match ns s !! name with
  | Some v => Ok v
  | None => Raise NameError
  end.

(** [len(v)] *)
Definition len (v : value) : result nat :=
  match v with
  | VTuple xs | VArray xs => Ok (length xs)
  | _ => Raise TypeError
  end.

(** The label sequence [LabelToOnehot(v)] keeps. *)
Definition as_labels (v : value) : result (list Z) :=
  match v with
  | VTuple xs | VArray xs => Ok xs
  | _ => Raise TypeError
  end.

Definition as_int (v : value) : result nat :=
  match v with
  | VInt n => Ok n
  | _ => Raise TypeError
  end.

Section Cells.

(** The behaviour of [LabelToOnehot.__call__], which lives outside the
    notebook. *)
Variable LabelToOnehot_call : LabelToOnehot -> mask -> result onehot.

(** crop_size = 224; labels = (0, 1, 2); n_labels = len(labels) *)
Definition cell_config (s : state) : result state :=
  let s := bind_name "crop_size" (VInt 224) s in
  let s := bind_name "labels" (VTuple [0; 1; 2]%Z) s in
  labels ← read "labels" s;
  n ← len labels;
  Ok (bind_name "n_labels" (VInt n) s).

(** data_transforms, image_datasets, dataloaders: the mask pipeline holds
    [LabelToOnehot(labels)], the dataset is given [labels] itself. *)
Definition cell_loaders (s : state) : result state :=
  crop_size ← read "crop_size" s;
  crop ← as_int crop_size;
  labels ← read "labels" s;
  ls ← as_labels labels;
  let masks := VPipeline crop (mkLabelToOnehot ls) in
  let s := bind_name "data_transforms" masks s in
  labels ← read "labels" s;
  data_transforms ← read "data_transforms" s;
  let s := bind_name "image_datasets" (VDataset labels data_transforms) s in
  image_datasets ← read "image_datasets" s;
  Ok (bind_name "dataloaders" (VLoader image_datasets) s).

(** The for loop over [zip(labels, label_counts)]. *)
Definition print_labels (labels : list Z) (label_counts : list nat)
  : list event :=
  map (fun '(l, lc) => PrintLabel l lc) (zip labels label_counts).

(** The inspection cell "Compare label and mask", on the mask that
    [imread] decodes. *)
Definition cell_inspect (mask_file : mask) (s : state) : result state :=
  let s := bind_name "mask" (VMask mask_file) s in
  labels ← read "labels" s;
  ls ← as_labels labels;
  let s := bind_name "LO" (VTransform (mkLabelToOnehot ls)) s in
  mask_oh ← LabelToOnehot_call (mkLabelToOnehot ls) mask_file;
  let s := bind_name "mask_oh" (VOnehot mask_oh) s in
  let '(labels, label_counts) := np_unique mask_file in
  let s := bind_name "labels" (VArray labels) s in
  let s := bind_name "label_counts" (VCounts label_counts) s in
  Ok (emit (print_labels labels label_counts) s).

(** fcn_model = FCNs(pretrained_net=vgg_model, n_class=n_labels) *)
Definition cell_model (s : state) : result state :=
  n_labels ← read "n_labels" s;
  n ← as_int n_labels;
  Ok (bind_name "fcn_model" (VModel n) s).

(** fcn_model = train_model(fcn_model, dataloaders, ...);
    visualize_model(fcn_model, dataloaders, labels) *)
Definition cell_train (s : state) : result state :=
  fcn_model ← read "fcn_model" s;
  dataloaders ← read "dataloaders" s;
  let s := bind_name "fcn_model" fcn_model s in
  fcn_model ← read "fcn_model" s;
  dataloaders ← read "dataloaders" s;
  labels ← read "labels" s;
  Ok (emit [VisualizeModel fcn_model dataloaders labels] s).

(** The cells in the order of the notebook, from a fresh kernel; the run
    stops at the first exception. *)
Definition run_all (mask_file : mask) : result state :=
  s ← cell_config (mkState ∅ []);
  s ← cell_loaders s;
  s ← cell_inspect mask_file s;
  s ← cell_model s;
  cell_train s.

End Cells.

End Notebook.

(** ** What the tables hold, image by image *)

Module Rows.
Import Numpy Estimator.

(** The row an image leaves in a table of three columns when numpy can
    broadcast its reduction: a greyscale image and an image with a channel
    axis of length 1 repeat their one statistic, a three-channel image
    gives one entry per channel. *)
Definition row_of (op : list f64 -> f64) (img : image) : list f64 :=
  match img with
  | Gray h w px => repeat (op (plane h w px)) 3
  | Color h w 1 px => repeat (op (plane h w (fun y x => px y x 0))) 3
  | Color _ _ _ _ => per_channel op img
  end.

(** The aggregation of the two filled tables. *)
Definition aggregate (imgs : list image) : list f64 * list f64 :=
  (np_mean_axis0 (mkTable 3 (map (row_of np_mean) imgs)),
   np_std_axis0 (mkTable 3 (map (row_of np_std) imgs))).

(** The one statistic of an image with a single channel. *)
Definition single_stat (op : list f64 -> f64) (img : image) : f64 :=
  match img with
  | Gray h w px => op (plane h w px)
  | Color h w _ px => op (plane h w (fun y x => px y x 0))
  end.

(** The planes of an image, one per channel. *)
Definition planes (img : image) : list (list f64) :=
  match img with
  | Gray h w px => [plane h w px]
  | Color h w c px => map (fun k => plane h w (fun y x => px y x k)) (seq 0 c)
  end.

(** An array of shape (h, w, ...) with at least one pixel. *)
Definition has_pixels (img : image) : Prop :=
  match img with
  | Gray h w _ | Color h w _ _ => 0 < h /\ 0 < w
  end.

(** A float64 that is a number, not NaN. *)
Definition is_num (a : f64) : Prop :=
  match a with
  | Num _ => True
  | NaN => False
  end.

(** An array of shape (h, w, ...) with h = 0 or w = 0. *)
Definition no_pixels (img : image) : Prop :=
  match img with
  | Gray h w _ | Color h w _ _ => h = 0 \/ w = 0
  end.

(** Every entry of the image lies between [lo] and [hi]. *)
Definition entries_within (lo hi : Z) (img : image) : Prop :=
  match img with
  | Gray h w px => forall y x, y < h -> x < w -> (lo <= px y x <= hi)%Z
  | Color h w c px =>
      forall y x k, y < h -> x < w -> k < c -> (lo <= px y x k <= hi)%Z
  end.

(** A float64 that is a number between [lo] and [hi]. *)
Definition num_within (lo hi : R) (a : f64) : Prop :=
  match a with
  | Num r => (lo <= r <= hi)%R
  | NaN => False
  end.

End Rows.

(** ** The names that carry the normalization constants *)

Module Normalization.
Import Numpy Estimator.

(** The values of the names the image side of the notebook reads:
    [crop_size], [channel_means], [channel_stds] and the image pipeline of
    [data_transforms]. *)
Inductive value : Type :=
| VInt (n : nat)
| VArray (xs : list f64)
| VTuple (xs : list R)
| VImagePipeline (crop mean std : value).

(** What reaches the outside: the two lines the statistics cell prints and
    the constants handed to [imshow] with the batch of inputs. *)
Inductive event : Type :=
| PrintMeans (v : value)
| PrintStds (v : value)
| ImshowInputs (means stds : value).

Record state : Type := mkState { ns : gmap string value; out : list event }.

Definition bind_name (name : string) (v : value) (s : state) : state :=
  mkState (<[name := v]> (ns s)) (out s).

Definition emit (es : list event) (s : state) : state :=
  mkState (ns s) (out s ++ es).

Definition read (name : string) (s : state) : result value :=
  match ns s !! name with
  | Some v => Ok v
  | None => Raise NameError
  end.

(** The cell "find means and stds of dataset": the estimate, bound to the
    two names and printed. *)
Definition cell_estimate (imgs_list : list image) (s : state) : result state :=
  '(channel_means, channel_stds) ← find_means_stds imgs_list;
  let s := bind_name "channel_means" (VArray channel_means) s in
  let s := bind_name "channel_stds" (VArray channel_stds) s in
  channel_means ← read "channel_means" s;
  channel_stds ← read "channel_stds" s;
  Ok (emit [PrintMeans channel_means; PrintStds channel_stds] s).

Local Open Scope R_scope.

Definition precomputed_means : list R :=
  [164.60564156; 150.75147313; 178.36823845].

Definition precomputed_stds : list R :=
  [9.46653235; 16.23701039; 9.48000306].

(** The cell "use precomputed means and stds". *)
Definition cell_precomputed (s : state) : result state :=
  let s := bind_name "channel_means" (VTuple precomputed_means) s in
  Ok (bind_name "channel_stds" (VTuple precomputed_stds) s).

(** crop_size = 224, of the configuration cell. *)
Definition cell_config (s : state) : result state :=
  Ok (bind_name "crop_size" (VInt 224) s).

(** The image pipeline of [data_transforms]:
    Compose([CenterCrop(crop_size), ToTensor(),
             Normalize(channel_means, channel_stds)]). *)
Definition cell_image_transforms (s : state) : result state :=
  crop_size ← read "crop_size" s;
  channel_means ← read "channel_means" s;
  channel_stds ← read "channel_stds" s;
  Ok (bind_name "data_transforms"
        (VImagePipeline crop_size channel_means channel_stds) s).

(** imshow(make_grid(inputs), means=channel_means, stds=channel_stds) *)
Definition cell_show_batch (s : state) : result state :=
  channel_means ← read "channel_means" s;
  channel_stds ← read "channel_stds" s;
  Ok (emit [ImshowInputs channel_means channel_stds] s).

(** The cells in notebook order from a fresh kernel.  The text of the
    notebook invites the reader to skip the statistics cell; [estimate] is
    the decoded image list when it is run, [use_precomputed] tells whether
    the cell of literals is run.  The cells that lie between the image
    pipeline and [imshow] (mask pipeline, datasets and loaders, inspection)
    bind none of these names and are not part of this run. *)
Definition run (estimate : option (list image)) (use_precomputed : bool)
  : result state :=
  s ← match estimate with
      | Some imgs_list => cell_estimate imgs_list (mkState ∅ [])
      | None => Ok (mkState ∅ [])
      end;
  s ← (if use_precomputed then cell_precomputed s else Ok s);
  s ← cell_config s;
  s ← cell_image_transforms s;
  cell_show_batch s.

(** What the image pipeline does to one entry of a byte image: the crop
    moves no value, ToTensor divides by 255, Normalize subtracts the
    channel's mean and divides by the channel's std. *)
Definition to_tensor (b : Z) : R := IZR b / 255.

Definition normalize (mean std : list R) (k : nat) (x : R) : R :=
  (x - nth k mean 0) / nth k std 0.

Definition image_pipeline (mean std : list R) (k : nat) (b : Z) : R :=
  normalize mean std k (to_tensor b).

End Normalization.

(** ** Proof steps shared by the cell lemmas *)

(** Peeling one [x ← r; k] off a run [H] that completed: [r] returned some
    [a], recorded in [Ha]. *)
Ltac peel H a Ha :=
  match type of H with
  | ?r ≫= _ = Ok _ =>
      destruct r as [a | ?] eqn:Ha; cbn [mbind result_bind] in H;
      [| discriminate H]
  end.

(** Lookups through a stack of bindings of literal names. *)
Ltac through_bindings :=
  repeat (rewrite lookup_insert_eq
          || rewrite lookup_insert_ne by discriminate).

(** * Properties *)

(** ** The channel statistics cell *)

Section EstimatorFacts.
Import Numpy Estimator.

Lemma broadcast_row_rgb (op : list f64 -> f64) (img : image) :
  is_rgb img = true ->
  broadcast_row 3 (reduce_hw op img) = Ok (per_channel op img).
Proof.
  destruct img as [h w px | h w c px]; simpl; [discriminate |].
  do 4 (destruct c as [| c]; try discriminate).
  intros _. reflexivity.
Qed.

Lemma setitem_rgb (op : list f64 -> f64) (img : image) (t : table)
  (pre post : list (list f64)) (old : list f64) :
  ncols t = 3 ->
  rows t = pre ++ old :: post ->
  is_rgb img = true ->
  setitem t (length pre) (reduce_hw op img)
  = Ok (mkTable 3 (pre ++ per_channel op img :: post)).
Proof.
  intros Hc Hr Hrgb. unfold setitem. rewrite Hr, Hc.
  replace (length pre <? length (pre ++ old :: post))%nat with true.
  2: { symmetry. apply Nat.ltb_lt. rewrite length_app. simpl. lia. }
  rewrite broadcast_row_rgb by assumption. simpl.
  rewrite insert_app_r_alt by lia.
  replace (length pre - length pre) with 0 by lia. reflexivity.
Qed.

(** The loop fills the zero tables row by row: after it, the rows not yet
    visited have become the per-image statistics, in order. *)
Lemma for_enumerate_rgb (rest : list image) :
  forall pre_m pre_s : list (list f64),
    length pre_m = length pre_s ->
    Forall (fun img => is_rgb img = true) rest ->
    for_enumerate (length pre_m) rest
      (mkTable 3 (pre_m ++ repeat (repeat (Num 0) 3) (length rest)),
       mkTable 3 (pre_s ++ repeat (repeat (Num 0) 3) (length rest)))
    = Ok (mkTable 3 (pre_m ++ map (per_channel np_mean) rest),
          mkTable 3 (pre_s ++ map (per_channel np_std) rest)).
Proof.
  induction rest as [| img rest IH]; intros pre_m pre_s Hlen Hall.
  - reflexivity.
  - inversion Hall as [| ? ? Hrgb Hrest]; subst.
    cbn [for_enumerate length repeat map]. unfold loop_body. cbn [fst snd].
    unfold np_mean_hw, np_std_hw.
    rewrite (setitem_rgb np_mean img _ pre_m _ (repeat (Num 0) 3))
      by (reflexivity || assumption).
    cbn [mbind result_bind].
    rewrite Hlen.
    rewrite (setitem_rgb np_std img _ pre_s _ (repeat (Num 0) 3))
      by (reflexivity || assumption).
    cbn [mbind result_bind].
    specialize (IH (pre_m ++ [per_channel np_mean img])
                   (pre_s ++ [per_channel np_std img])).
    rewrite !length_app in IH. cbn [length] in IH.
    rewrite <- !app_assoc in IH. cbn [app] in IH.
    replace (S (length pre_s)) with (length pre_m + 1) by lia.
    apply IH; [lia | assumption].
Qed.

(** The cell on three-channel images: no row assignment raises, and the
    tables the aggregation reads are the per-image statistics. *)
Lemma find_means_stds_rgb (imgs : list image) :
  Forall (fun img => is_rgb img = true) imgs ->
  find_means_stds imgs
  = Ok (np_mean_axis0 (mkTable 3 (map (per_channel np_mean) imgs)),
        np_std_axis0 (mkTable 3 (map (per_channel np_std) imgs))).
Proof.
  intros Hall. unfold find_means_stds, np_zeros_like, np_zeros.
  cbn [rows ncols]. rewrite repeat_length.
  pose proof (for_enumerate_rgb imgs [] [] eq_refl Hall) as Hloop.
  cbn [length app] in Hloop. rewrite Hloop. reflexivity.
Qed.

Lemma broadcast_row_cases (op : list f64 -> f64) (img : image) :
  match broadcast_row 3 (reduce_hw op img) with
  | Ok row => broadcastable img = true /\ length row = 3
  | Raise e => broadcastable img = false /\ e = ValueError
  end.
Proof.
  destruct img as [h w px | h w c px]; simpl.
  - split; reflexivity.
  - do 4 (destruct c as [| c]; [simpl; split; reflexivity |]).
    cbn [seq map length Nat.eqb]. split; reflexivity.
Qed.

Lemma setitem_cases (op : list f64 -> f64) (img : image) (t : table)
  (i : nat) :
  ncols t = 3 ->
  i < length (rows t) ->
  match setitem t i (reduce_hw op img) with
  | Ok t' =>
      broadcastable img = true /\ ncols t' = 3
      /\ length (rows t') = length (rows t)
  | Raise e => broadcastable img = false /\ e = ValueError
  end.
Proof.
  intros Hc Hi. unfold setitem.
  apply Nat.ltb_lt in Hi. rewrite Hi, Hc.
  pose proof (broadcast_row_cases op img) as Hb.
  destruct (broadcast_row 3 (reduce_hw op img)) as [row | e]; simpl.
  - destruct Hb as [Hb _]. rewrite length_insert. auto.
  - exact Hb.
Qed.

(** The loop raises exactly when one of the images it is given cannot be
    broadcast, and then with numpy's ValueError. *)
Lemma for_enumerate_cases (rest : list image) :
  forall (i : nat) (tm ts : table),
    ncols tm = 3 -> ncols ts = 3 ->
    i + length rest <= length (rows tm) ->
    i + length rest <= length (rows ts) ->
    match for_enumerate i rest (tm, ts) with
    | Ok _ => forallb broadcastable rest = true
    | Raise e => forallb broadcastable rest = false /\ e = ValueError
    end.
Proof.
  induction rest as [| img rest IH]; intros i tm ts Hcm Hcs Hlm Hls.
  - reflexivity.
  - cbn [for_enumerate forallb length] in *. unfold loop_body. cbn [fst snd].
    pose proof (setitem_cases np_mean img tm i Hcm ltac:(lia)) as Hm.
    pose proof (setitem_cases np_std img ts i Hcs ltac:(lia)) as Hs.
    unfold np_mean_hw, np_std_hw.
    destruct (setitem tm i (reduce_hw np_mean img)) as [tm' | e];
      cbn [mbind result_bind].
    2: { destruct Hm as [-> ->]. split; reflexivity. }
    destruct (setitem ts i (reduce_hw np_std img)) as [ts' | e];
      cbn [mbind result_bind].
    2: { destruct Hs as [-> ->]. split; reflexivity. }
    destruct Hm as (-> & Hcm' & Hlm'). destruct Hs as (_ & Hcs' & Hls').
    cbn [andb]. apply IH; lia.
Qed.

Lemma find_means_stds_cases (imgs : list image) :
  match find_means_stds imgs with
  | Ok _ => forallb broadcastable imgs = true
  | Raise e => forallb broadcastable imgs = false /\ e = ValueError
  end.
Proof.
  unfold find_means_stds, np_zeros_like, np_zeros. cbn [rows ncols].
  rewrite repeat_length.
  pose proof (for_enumerate_cases imgs 0
                (mkTable 3 (repeat (repeat (Num 0) 3) (length imgs)))
                (mkTable 3 (repeat (repeat (Num 0) 3) (length imgs)))
                eq_refl eq_refl) as Hloop.
  cbn [rows] in Hloop. rewrite repeat_length in Hloop.
  specialize (Hloop ltac:(lia) ltac:(lia)).
  destruct (for_enumerate 0 imgs _) as [[tm ts] | e];
    cbn [mbind result_bind]; exact Hloop.
Qed.

Local Open Scope R_scope.

Lemma map_const {A B : Type} (g : A -> B) (c : B) (l : list A) :
  (forall a, In a l -> g a = c) -> map g l = repeat c (length l).
Proof.
  induction l as [| a l IH]; intros Hg; simpl.
  - reflexivity.
  - rewrite (Hg a) by (left; reflexivity).
    rewrite IH by (intros b Hb; apply Hg; right; exact Hb). reflexivity.
Qed.

Lemma flat_map_const {A B : Type} (g : A -> list B) (c : B) (n : nat)
  (l : list A) :
  (forall a, In a l -> g a = repeat c n) ->
  flat_map g l = repeat c (length l * n).
Proof.
  induction l as [| a l IH]; intros Hg; simpl.
  - reflexivity.
  - rewrite (Hg a) by (left; reflexivity).
    rewrite IH by (intros b Hb; apply Hg; right; exact Hb).
    symmetry. apply repeat_app.
Qed.

Lemma plane_const (h w : nat) (f : nat -> nat -> Z) (v : Z) :
  (forall y x, (y < h)%nat -> (x < w)%nat -> f y x = v) ->
  plane h w f = repeat (Num (IZR v)) (h * w).
Proof.
  intros Hf. unfold plane.
  rewrite (flat_map_const _ (Num (IZR v)) w).
  - rewrite length_seq. reflexivity.
  - intros y Hy. apply in_seq in Hy.
    rewrite (map_const _ (Num (IZR v))).
    + rewrite length_seq. reflexivity.
    + intros x Hx. apply in_seq in Hx. rewrite Hf by lia. reflexivity.
Qed.

Lemma fold_fadd_repeat (r a : R) (n : nat) :
  fold_left fadd (repeat (Num r) n) (Num a) = Num (a + INR n * r).
Proof.
  revert a. induction n as [| n IH]; intros a.
  - simpl. f_equal. lra.
  - cbn [repeat fold_left fadd]. rewrite IH. f_equal.
    rewrite S_INR. lra.
Qed.

Lemma np_mean_repeat (r : R) (n : nat) :
  (0 < n)%nat -> np_mean (repeat (Num r) n) = Num r.
Proof.
  intros Hn. unfold np_mean, fsum. rewrite fold_fadd_repeat, repeat_length.
  destruct n as [| n]; [lia |]. unfold fdiv_count. f_equal.
  assert (INR (S n) <> 0) by (apply not_0_INR; lia).
  field. assumption.
Qed.

Lemma np_std_repeat (r : R) (n : nat) :
  (0 < n)%nat -> np_std (repeat (Num r) n) = Num 0.
Proof.
  intros Hn. unfold np_std. rewrite np_mean_repeat by assumption.
  rewrite (map_const (fun a => fsub a (Num r)) (Num (r - r))) by
    (intros a Ha; apply repeat_spec in Ha; subst a; reflexivity).
  rewrite (map_const _ (Num 0)).
  - rewrite !repeat_length, np_mean_repeat by assumption.
    simpl. f_equal. apply sqrt_0.
  - intros a Ha. apply repeat_spec in Ha. subst a. simpl. f_equal. ring.
Qed.

Lemma solid_color_rgb (v : Z) (img : image) :
  solid_color v img -> is_rgb img = true.
Proof.
  destruct img as [h w px | h w c px]; simpl; [tauto |].
  intros [-> _]. reflexivity.
Qed.

Lemma per_channel_solid (op : list f64 -> f64) (c : f64) (v : Z)
  (img : image) :
  (forall n, (0 < n)%nat -> op (repeat (Num (IZR v)) n) = c) ->
  solid_color v img ->
  per_channel op img = [c; c; c].
Proof.
  intros Hop Himg. destruct img as [h w px | h w ch px]; simpl in Himg.
  - tauto.
  - destruct Himg as (-> & Hh & Hw & Hpx). cbn [per_channel seq map].
    rewrite !(plane_const h w _ v) by (intros; apply Hpx; lia).
    rewrite Hop by nia. reflexivity.
Qed.

Lemma column_repeat (n : nat) (c : f64) (k : nat) :
  (k < 3)%nat ->
  column k (mkTable 3 (repeat [c; c; c] n)) = repeat c n.
Proof.
  intros Hk. unfold column. cbn [rows].
  rewrite (map_const _ c), repeat_length; [reflexivity |].
  intros row Hrow. apply repeat_spec in Hrow. subst row.
  do 3 (destruct k as [| k]; [reflexivity |]). lia.
Qed.

(** The estimator on solid images that need not be equal in size. *)
Lemma find_means_stds_solid (v : Z) (imgs : list image) :
  imgs <> [] ->
  Forall (solid_color v) imgs ->
  find_means_stds imgs
  = Ok ([Num (IZR v); Num (IZR v); Num (IZR v)], [Num 0; Num 0; Num 0]).
Proof.
  intros Hne Hall.
  rewrite find_means_stds_rgb
    by (eapply Forall_impl; [exact Hall | apply solid_color_rgb]).
  assert (Hlen : (0 < length imgs)%nat)
    by (destruct imgs; [congruence | simpl; lia]).
  rewrite (map_const _ [Num (IZR v); Num (IZR v); Num (IZR v)]).
  2: { intros img Hin. rewrite Forall_forall in Hall.
       apply (per_channel_solid np_mean (Num (IZR v)) v).
       - intros n Hn. apply np_mean_repeat. exact Hn.
       - apply Hall. apply list_elem_of_In. exact Hin. }
  rewrite (map_const _ [Num 0; Num 0; Num 0]).
  2: { intros img Hin. rewrite Forall_forall in Hall.
       apply (per_channel_solid np_std (Num 0) v).
       - intros n Hn. apply np_std_repeat. exact Hn.
       - apply Hall. apply list_elem_of_In. exact Hin. }
  unfold np_mean_axis0, np_std_axis0. cbn [ncols seq map].
  rewrite !column_repeat by lia.
  rewrite !np_mean_repeat, !np_std_repeat by assumption.
  reflexivity.
Qed.

(** C3: on a list of three-channel images the cell computes, per image,
    the per-channel mean and standard deviation over height and width,
    holds them in two N x 3 tables, and returns the column-wise mean of the
    means table and the column-wise standard deviation of the stds table,
    that is, what [spec_channel_stats] describes. *)
Theorem find_means_stds_refines_spec (imgs : list image) :
  imgs <> [] ->
  Forall (fun img => is_rgb img = true) imgs ->
  find_means_stds imgs = Ok (spec_channel_stats imgs)
  /\ length (spec_means_table imgs) = length imgs
  /\ length (spec_stds_table imgs) = length imgs
  /\ Forall (fun row => length row = 3%nat) (spec_means_table imgs)
  /\ Forall (fun row => length row = 3%nat) (spec_stds_table imgs).
Proof.
  intros _ Hall. split; [apply find_means_stds_rgb; exact Hall |].
  unfold spec_means_table, spec_stds_table. rewrite !length_map.
  do 2 (split; [reflexivity |]).
  split; apply Forall_map; (eapply Forall_impl; [exact Hall |]);
    intros [h w px | h w c px]; simpl; try discriminate;
    (do 4 (destruct c as [| c]; try discriminate)); reflexivity.
Qed.

Lemma find_means_stds_refines_spec_witness :
  find_means_stds [Color 1 1 3 (fun _ _ k => Z.of_nat k)]
  = Ok (spec_channel_stats [Color 1 1 3 (fun _ _ k => Z.of_nat k)]).
Proof.
  apply (find_means_stds_refines_spec [Color 1 1 3 (fun _ _ k => Z.of_nat k)]).
  - discriminate.
  - repeat constructor.
Defined.

(** The aggregation is not the pooled statistic: on two one-pixel images of
    values 0 and 2 the cell returns a standard deviation of 0 per channel,
    where the standard deviation of the pooled pixels is 1. *)
Lemma channel_stds_not_pooled :
  let imgs := [Color 1 1 3 (fun _ _ _ => 0%Z); Color 1 1 3 (fun _ _ _ => 2%Z)] in
  find_means_stds imgs = Ok ([Num 1; Num 1; Num 1], [Num 0; Num 0; Num 0])
  /\ (forall k, pooled np_std k imgs = Num 1).
Proof.
  split.
  - rewrite find_means_stds_rgb by (repeat constructor).
    cbn -[np_std sqrt IZR]. unfold np_mean; cbn -[np_std sqrt IZR].
    assert (Hs : np_std [Num 0] = Num 0) by (apply (np_std_repeat 0 1); lia).
    assert (Hs2 : np_std [Num 2] = Num 0) by (apply (np_std_repeat 2 1); lia).
    rewrite Hs, Hs2.
    assert (Hs3 : np_std [Num 0; Num 0] = Num 0)
      by (apply (np_std_repeat 0 2); lia).
    rewrite Hs3.
    replace ((0 + (0 + 0) / 1 + (0 + 2) / 1) / (1 + 1)) with 1 by lra.
    reflexivity.
  - intros k. unfold pooled, np_std, np_mean. cbn -[sqrt IZR].
    transitivity (Num (sqrt 1)); [| f_equal; apply sqrt_1].
    f_equal. f_equal. lra.
Qed.

(** C8: on N >= 1 identical single-colour images, every entry of every
    channel being v, the cell returns the mean v and the standard deviation
    0 for each of the three channels, in exact arithmetic. *)
Theorem identical_solid_images_stats (N : nat) (img : image) (v : Z) :
  (1 <= N)%nat ->
  solid_color v img ->
  find_means_stds (repeat img N)
  = Ok ([Num (IZR v); Num (IZR v); Num (IZR v)], [Num 0; Num 0; Num 0]).
Proof.
  intros HN Himg. apply find_means_stds_solid.
  - destruct N; [lia | discriminate].
  - apply Forall_forall. intros x Hx. apply list_elem_of_In in Hx.
    apply repeat_spec in Hx. subst x. exact Himg.
Qed.

Lemma identical_solid_images_stats_witness :
  find_means_stds (repeat (Color 2 2 3 (fun _ _ _ => 7%Z)) 2)
  = Ok ([Num 7; Num 7; Num 7], [Num 0; Num 0; Num 0]).
Proof.
  apply (identical_solid_images_stats 2 (Color 2 2 3 (fun _ _ _ => 7%Z)) 7).
  - lia.
  - simpl. repeat split; lia.
Defined.

(** C4, as the claim has it, fails: on the empty list the cell does not
    raise InvalidInputError, nor anything else. *)
Lemma empty_list_does_not_raise :
  find_means_stds [] <> Raise InvalidInputError
  /\ ~ raises (find_means_stds []).
Proof.
  split; [discriminate |]. intros [e He]. discriminate He.
Qed.

(** C4, amended: on the empty list the cell raises nothing; both tables
    have shape (0, 3) and each of the three entries of the two returned
    vectors is NaN, the mean of an empty column. *)
Theorem empty_list_yields_nan :
  find_means_stds [] = Ok ([NaN; NaN; NaN], [NaN; NaN; NaN]).
Proof. reflexivity. Qed.

(** C7, as the claim has it, fails: a greyscale image has one channel, not
    three, and the cell aggregates it without raising; so does an image
    with a channel axis of length 1. *)
Lemma one_channel_image_does_not_raise :
  channels (Gray 1 1 (fun _ _ => 5%Z)) <> 3%nat
  /\ ~ raises (find_means_stds [Gray 1 1 (fun _ _ => 5%Z)])
  /\ channels (Color 1 1 1 (fun _ _ _ => 5%Z)) <> 3%nat
  /\ ~ raises (find_means_stds [Color 1 1 1 (fun _ _ _ => 5%Z)]).
Proof.
  repeat split; try (simpl; lia); intros [e He]; discriminate He.
Qed.

(** C7, amended: when the list contains an image whose channel count is
    neither 3 nor 1, the cell raises numpy's ValueError (the failed row
    assignment) instead of aggregating. *)
Theorem other_channel_count_raises (imgs : list image) (img : image) :
  In img imgs ->
  channels img <> 3%nat ->
  channels img <> 1%nat ->
  find_means_stds imgs = Raise ValueError.
Proof.
  intros Hin H3 H1.
  assert (Hbad : forallb broadcastable imgs = false).
  { apply not_true_is_false. intros Hall.
    rewrite forallb_forall in Hall. specialize (Hall img Hin).
    destruct img as [h w px | h w c px]; simpl in *; [lia |].
    apply orb_true_iff in Hall. rewrite !Nat.eqb_eq in Hall. lia. }
  pose proof (find_means_stds_cases imgs) as Hcases.
  destruct (find_means_stds imgs) as [r | e].
  - congruence.
  - destruct Hcases as [_ ->]. reflexivity.
Qed.

Lemma other_channel_count_raises_witness :
  find_means_stds [Color 1 1 3 (fun _ _ _ => 5%Z); Color 1 1 4 (fun _ _ _ => 5%Z)]
  = Raise ValueError.
Proof.
  apply (other_channel_count_raises _ (Color 1 1 4 (fun _ _ _ => 5%Z))).
  - right. left. reflexivity.
  - simpl. lia.
  - simpl. lia.
Defined.

(** Images of one or three channels are all the cell aggregates without
    raising. *)
Lemma broadcastable_images_aggregate (imgs : list image) :
  Forall (fun img => channels img = 1%nat \/ channels img = 3%nat) imgs ->
  exists r, find_means_stds imgs = Ok r.
Proof.
  intros Hall.
  assert (Hok : forallb broadcastable imgs = true).
  { apply forallb_forall. intros img Hin. rewrite Forall_forall in Hall.
    specialize (Hall img (proj2 (list_elem_of_In _ _) Hin)).
    destruct img as [h w px | h w c px]; simpl in *; [reflexivity |].
    apply orb_true_iff. rewrite !Nat.eqb_eq. lia. }
  pose proof (find_means_stds_cases imgs) as Hcases.
  destruct (find_means_stds imgs) as [r | e].
  - exists r. reflexivity.
  - destruct Hcases as [Hf _]. congruence.
Qed.

End EstimatorFacts.

(** ** The one-hot transform *)

Section DatasetFacts.
Import Dataset.
Local Open Scope Z_scope.

Lemma recognized_elem_of (labels : list Z) (p : Z) :
  recognized labels p = true <-> p ∈ labels.
Proof.
  unfold recognized. rewrite existsb_exists, list_elem_of_In. split.
  - intros (l & Hin & Heq). apply Z.eqb_eq in Heq. subst l. exact Hin.
  - intros Hin. exists p. split; [exact Hin | apply Z.eqb_refl].
Qed.

Lemma labels_recognized_forallb (labels : list Z) (m : mask) :
  forallb (forallb (recognized labels)) m = true <-> labels_recognized labels m.
Proof.
  unfold labels_recognized. rewrite forallb_forall. split.
  - intros H row p Hrow Hp. apply recognized_elem_of.
    apply list_elem_of_In in Hrow, Hp.
    specialize (H row Hrow). rewrite forallb_forall in H. apply H, Hp.
  - intros H row Hrow. apply forallb_forall. intros p Hp.
    apply recognized_elem_of. apply (H row); apply list_elem_of_In; assumption.
Qed.

Lemma call_recognized (labels : list Z) (m : mask) :
  labels_recognized labels m ->
  call (mkLabelToOnehot labels) m = Ok (map (map (encode_pixel labels)) m).
Proof.
  intros H. unfold call. cbn [lo_labels].
  apply labels_recognized_forallb in H. rewrite H. reflexivity.
Qed.

Lemma lookup_map {A B : Type} (f : A -> B) (l : list A) (i : nat) :
  map f l !! i = f <$> l !! i.
Proof.
  revert i. induction l as [| a l IH]; intros [| i]; simpl; auto.
Qed.

Lemma encode_pixel_length (labels : list Z) (p : Z) :
  length (encode_pixel labels p) = length labels.
Proof. unfold encode_pixel. apply length_map. Qed.

(** The first active channel of an encoded pixel holds the pixel's label. *)
Lemma decode_encode_pixel (labels : list Z) (p : Z) :
  p ∈ labels -> decode_pixel labels (encode_pixel labels p) = Some p.
Proof.
  unfold decode_pixel. induction labels as [| l labels IH]; intros Hin.
  - inversion Hin.
  - cbn [encode_pixel map active_channel].
    destruct (Z.eqb_spec p l) as [-> | Hne]; cbn.
    + reflexivity.
    + assert (Hin' : p ∈ labels) by (inversion Hin; subst; tauto).
      specialize (IH Hin'). fold (encode_pixel labels p).
      destruct (active_channel (encode_pixel labels p)) as [i |]; cbn in *;
        [exact IH | discriminate].
Qed.

Lemma mapM_map_inverse {A B : Type} (f : A -> B) (g : B -> option A)
  (l : list A) :
  (forall a, a ∈ l -> g (f a) = Some a) -> mapM g (map f l) = Some l.
Proof.
  intros H. apply mapM_Some_2.
  induction l as [| a l IH]; simpl; constructor.
  - apply H. left.
  - apply IH. intros b Hb. apply H. right. exact Hb.
Qed.

(** Channel [c] of an encoded pixel, for labels without repetition. *)
Lemma encode_pixel_lookup (labels : list Z) (p : Z) (i c : nat) :
  NoDup labels ->
  labels !! i = Some p ->
  (c < length labels)%nat ->
  encode_pixel labels p !! c = Some (if decide (c = i) then 1 else 0).
Proof.
  intros Hnd Hi Hc. unfold encode_pixel. rewrite lookup_map.
  destruct (lookup_lt_is_Some_2 labels c Hc) as [l Hl]. rewrite Hl. cbn.
  f_equal. destruct (decide (c = i)) as [-> | Hne].
  - assert (l = p) by congruence. subst l. rewrite Z.eqb_refl. reflexivity.
  - destruct (Z.eqb_spec p l) as [-> | _]; [| reflexivity].
    exfalso. apply Hne. eapply NoDup_lookup; eauto.
Qed.

(** C1: for a mask all of whose pixels belong to the recognized labels,
    the transform returns an encoding, and decoding it (the index of the
    active channel of each pixel, mapped back through the labels) gives the
    mask back. *)
Theorem onehot_round_trip (labels : list Z) (m : mask) :
  labels_recognized labels m ->
  exists oh,
    call (mkLabelToOnehot labels) m = Ok oh /\ decode labels oh = Some m.
Proof.
  intros Hrec. exists (map (map (encode_pixel labels)) m).
  split; [apply call_recognized; exact Hrec |].
  unfold decode. apply mapM_map_inverse. intros row Hrow.
  apply mapM_map_inverse. intros p Hp.
  apply decode_encode_pixel. exact (Hrec row p Hrow Hp).
Qed.

Lemma onehot_round_trip_witness :
  exists oh,
    call (mkLabelToOnehot [0; 1; 2]) [[0; 2; 2]; [1; 0; 2]] = Ok oh
    /\ decode [0; 1; 2] oh = Some [[0; 2; 2]; [1; 0; 2]].
Proof.
  apply (onehot_round_trip [0; 1; 2] [[0; 2; 2]; [1; 0; 2]]).
  apply labels_recognized_forallb. vm_compute. reflexivity.
Defined.

(** C2: for an ordered label set (no label twice) and a mask all of whose
    pixels belong to it, the encoding has at every pixel position exactly
    one channel equal to 1 and all others equal to 0, the channel set being
    the position of the pixel's label in the label set. *)
Theorem onehot_exactly_one_channel (labels : list Z) (m : mask) :
  NoDup labels ->
  labels_recognized labels m ->
  exists oh,
    call (mkLabelToOnehot labels) m = Ok oh
    /\ forall y x p,
         pixel_at m y x = Some p ->
         exists chans i,
           pixel_at oh y x = Some chans
           /\ length chans = length labels
           /\ labels !! i = Some p
           /\ forall c, (c < length labels)%nat ->
                 chans !! c = Some (if decide (c = i) then 1 else 0).
Proof.
  intros Hnd Hrec. exists (map (map (encode_pixel labels)) m).
  split; [apply call_recognized; exact Hrec |].
  intros y x p Hpx. unfold pixel_at in *.
  apply bind_Some in Hpx as (row & Hrow & Hpx).
  assert (Hin : p ∈ labels).
  { apply (Hrec row p); eapply list_elem_of_lookup_2; eassumption. }
  destruct (list_elem_of_lookup_1 _ _ Hin) as [i Hi].
  exists (encode_pixel labels p), i.
  rewrite lookup_map, Hrow. cbn. rewrite lookup_map, Hpx. cbn.
  split; [reflexivity |]. split; [apply encode_pixel_length |].
  split; [exact Hi |].
  intros c Hc. apply encode_pixel_lookup; assumption.
Qed.

Lemma onehot_exactly_one_channel_witness :
  exists oh,
    call (mkLabelToOnehot [0; 1; 2]) [[0; 2]; [1; 1]] = Ok oh
    /\ forall y x p,
         pixel_at [[0; 2]; [1; 1]] y x = Some p ->
         exists chans i,
           pixel_at oh y x = Some chans
           /\ length chans = length [0; 1; 2]
           /\ [0; 1; 2] !! i = Some p
           /\ forall c, (c < length [0; 1; 2])%nat ->
                 chans !! c = Some (if decide (c = i) then 1 else 0).
Proof.
  apply (onehot_exactly_one_channel [0; 1; 2] [[0; 2]; [1; 1]]).
  - apply NoDup_ListNoDup. repeat constructor; simpl; lia.
  - apply labels_recognized_forallb. vm_compute. reflexivity.
Defined.

(** Why the labels must be a set: with a label listed twice, a pixel of
    that label has two channels set. *)
Example repeated_label_sets_two_channels :
  call (mkLabelToOnehot [0; 0; 1]) [[0; 1]] = Ok [[[1; 1; 0]; [0; 0; 1]]].
Proof. reflexivity. Qed.

(** C5: a mask with a pixel whose value is not among the recognized labels
    makes the transform raise UnrecognizedLabelError. *)
Theorem unrecognized_label_raises (labels : list Z) (m : mask)
  (row : list Z) (p : Z) :
  row ∈ m -> p ∈ row -> p ∉ labels ->
  call (mkLabelToOnehot labels) m = Raise UnrecognizedLabelError.
Proof.
  intros Hrow Hp Hnot. unfold call. cbn [lo_labels].
  destruct (forallb (forallb (recognized labels)) m) eqn:Hall;
    [| reflexivity].
  apply labels_recognized_forallb in Hall.
  exfalso. apply Hnot. exact (Hall row p Hrow Hp).
Qed.

Lemma unrecognized_label_raises_witness :
  call (mkLabelToOnehot [0; 1; 2]) [[0; 1]; [7; 2]]
  = Raise UnrecognizedLabelError.
Proof.
  apply (unrecognized_label_raises [0; 1; 2] [[0; 1]; [7; 2]] [7; 2] 7).
  - right. left.
  - left.
  - rewrite list_elem_of_In. simpl. lia.
Defined.

(** C6: for k recognized labels and a mask all of whose pixels belong to
    them, the encoding keeps the height and the width of the mask and has
    exactly k channels at every pixel, whichever labels the mask uses. *)
Theorem onehot_channel_count (labels : list Z) (m : mask) :
  labels_recognized labels m ->
  exists oh,
    call (mkLabelToOnehot labels) m = Ok oh
    /\ Forall2 (fun row oh_row => length oh_row = length row) m oh
    /\ Forall (Forall (fun chans => length chans = length labels)) oh.
Proof.
  intros Hrec. exists (map (map (encode_pixel labels)) m).
  split; [apply call_recognized; exact Hrec |]. clear Hrec. split.
  - induction m as [| row m IH]; simpl; constructor.
    + apply length_map.
    + exact IH.
  - induction m as [| row m IH]; simpl; constructor.
    + induction row as [| p row IHrow]; simpl; constructor.
      * apply encode_pixel_length.
      * exact IHrow.
    + exact IH.
Qed.

Lemma onehot_channel_count_witness :
  exists oh,
    call (mkLabelToOnehot [0; 1; 2]) [[1; 1]; [1; 1]] = Ok oh
    /\ Forall2 (fun row oh_row => length oh_row = length row)
         [[1; 1]; [1; 1]] oh
    /\ Forall (Forall (fun chans => length chans = length [0; 1; 2])) oh.
Proof.
  apply (onehot_channel_count [0; 1; 2] [[1; 1]; [1; 1]]).
  apply labels_recognized_forallb. vm_compute. reflexivity.
Defined.

(** A mask that uses one of three labels still gets three channels. *)
Example one_label_mask_three_channels :
  call (mkLabelToOnehot [0; 1; 2]) [[1; 1]; [1; 1]]
  = Ok [[[0; 1; 0]; [0; 1; 0]]; [[0; 1; 0]; [0; 1; 0]]].
Proof. reflexivity. Qed.

End DatasetFacts.

(** ** np.unique *)

Section UniqueFacts.
Import Numpy.
Local Open Scope Z_scope.

Lemma count_in_keys (x x' : Z) (acc : list (Z * nat)) :
  x' ∈ (count_in x acc).*1 <-> x' = x \/ x' ∈ acc.*1.
Proof.
  induction acc as [| [y c] acc IH]; cbn [count_in].
  - cbn. rewrite list_elem_of_singleton. rewrite elem_of_nil. tauto.
  - destruct (Z.ltb_spec x y) as [Hlt | Hge].
    + cbn. rewrite !elem_of_cons. tauto.
    + destruct (Z.eqb_spec x y) as [-> | Hne].
      * cbn. rewrite !elem_of_cons. tauto.
      * cbn in *. rewrite !elem_of_cons, IH. tauto.
Qed.

Lemma count_in_sorted (x : Z) (acc : list (Z * nat)) :
  StronglySorted Z.lt acc.*1 -> StronglySorted Z.lt (count_in x acc).*1.
Proof.
  induction acc as [| [y c] acc IH]; cbn [count_in]; intros Hs.
  - cbn. repeat constructor.
  - cbn in Hs. apply StronglySorted_inv in Hs as [Hs Hall].
    destruct (Z.ltb_spec x y) as [Hlt | Hge].
    + cbn. constructor; [constructor; assumption |].
      constructor; [exact Hlt |].
      eapply Forall_impl; [exact Hall |]. cbn. intros z Hz. lia.
    + destruct (Z.eqb_spec x y) as [-> | Hne].
      * cbn. constructor; assumption.
      * cbn. constructor; [apply IH; exact Hs |].
        apply Forall_forall. intros z Hz. apply count_in_keys in Hz.
        destruct Hz as [-> | Hz]; [lia |].
        rewrite Forall_forall in Hall. apply Hall. exact Hz.
Qed.

(** The values [np.unique] returns are those of the array. *)
Lemma unique_counts_keys (flat : list Z) (x : Z) :
  x ∈ (unique_counts flat).*1 <-> x ∈ flat.
Proof.
  unfold unique_counts. induction flat as [| a flat IH]; cbn [foldr].
  - cbn. reflexivity.
  - rewrite count_in_keys, elem_of_cons, IH. reflexivity.
Qed.

(** They come in increasing order, hence each once. *)
Lemma unique_counts_sorted (flat : list Z) :
  StronglySorted Z.lt (unique_counts flat).*1.
Proof.
  unfold unique_counts. induction flat as [| a flat IH]; cbn [foldr].
  - constructor.
  - apply count_in_sorted. exact IH.
Qed.

Lemma np_unique_distinct_values (a : list (list Z)) :
  StronglySorted Z.lt (np_unique a).1
  /\ forall x, x ∈ (np_unique a).1 <-> exists row, row ∈ a /\ x ∈ row.
Proof.
  unfold np_unique. cbn [fst]. split; [apply unique_counts_sorted |].
  intros x. rewrite unique_counts_keys. rewrite list_elem_of_In, in_concat.
  split; intros (row & H1 & H2); exists row;
    rewrite ?list_elem_of_In in *; tauto.
Qed.

End UniqueFacts.

(** ** The notebook's [labels] *)

Section NotebookFacts.
Import Numpy Dataset Notebook.

Variable LabelToOnehot_call : LabelToOnehot -> mask -> result onehot.

Lemma read_Ok (name : string) (s : state) (v : value) :
  read name s = Ok v <-> ns s !! name = Some v.
Proof.
  unfold read. destruct (ns s !! name); split; congruence.
Qed.

Lemma read_bind_name (name : string) (v : value) (s : state) :
  read name (bind_name name v s) = Ok v.
Proof. apply read_Ok. cbn. apply lookup_insert_eq. Qed.

Lemma read_bind_other (name other : string) (v : value) (s : state) :
  other <> name -> read name (bind_name other v s) = read name s.
Proof.
  intros Hne. unfold read. cbn. rewrite lookup_insert_ne by exact Hne.
  reflexivity.
Qed.

(** The configuration cell binds the tuple and its length. *)
Lemma cell_config_labels (s s' : state) :
  cell_config s = Ok s' ->
  ns s' !! "labels" = Some (VTuple [0; 1; 2]%Z)
  /\ ns s' !! "n_labels" = Some (VInt 3)
  /\ ns s' !! "crop_size" = Some (VInt 224)
  /\ out s' = out s.
Proof.
  unfold cell_config. rewrite read_bind_name. cbn. intros [= <-]. cbn.
  through_bindings. auto.
Qed.

(** The loaders cell builds its transform from the labels bound when it
    runs, and binds only its own three names. *)
Lemma cell_loaders_frame (s s' : state) :
  cell_loaders s = Ok s' ->
  (forall name,
      name <> "data_transforms" -> name <> "image_datasets" ->
      name <> "dataloaders" -> ns s' !! name = ns s !! name)
  /\ out s' = out s
  /\ exists crop labels ls,
       ns s !! "crop_size" = Some (VInt crop)
       /\ ns s !! "labels" = Some labels
       /\ as_labels labels = Ok ls
       /\ ns s' !! "data_transforms"
          = Some (VPipeline crop (mkLabelToOnehot ls)).
Proof.
  unfold cell_loaders. intros H.
  peel H crop_size Hcrop. peel H crop Hc. peel H labels Hl. peel H ls Hls.
  peel H labels' Hl'. peel H dt Hdt. peel H ds Hds. injection H as <-.
  cbn. split; [| split; [reflexivity |]].
  - intros name H1 H2 H3. rewrite !lookup_insert_ne by congruence.
    reflexivity.
  - exists crop, labels, ls. apply read_Ok in Hl, Hcrop.
    destruct crop_size; try discriminate Hc. injection Hc as ->.
    split; [exact Hcrop |].
    split; [exact Hl |]. split; [exact Hls |]. through_bindings.
    reflexivity.
Qed.

(** The inspection cell: when it completes, [labels] is the array of the
    mask's distinct values, whatever it was; [LO] is an instance over the
    labels bound before; the names the cell does not assign stay as they
    were, and one line per distinct value is printed. *)
Lemma cell_inspect_rebinds (m : mask) (s s' : state) :
  cell_inspect LabelToOnehot_call m s = Ok s' ->
  ns s' !! "labels" = Some (VArray (np_unique m).1)
  /\ ns s' !! "label_counts" = Some (VCounts (np_unique m).2)
  /\ (forall name,
        name <> "mask" -> name <> "LO" -> name <> "mask_oh" ->
        name <> "labels" -> name <> "label_counts" ->
        ns s' !! name = ns s !! name)
  /\ out s' = out s ++ print_labels (np_unique m).1 (np_unique m).2
  /\ exists labels ls,
       ns s !! "labels" = Some labels
       /\ as_labels labels = Ok ls
       /\ ns s' !! "LO" = Some (VTransform (mkLabelToOnehot ls)).
Proof.
  unfold cell_inspect. intros H.
  peel H labels Hl. peel H ls Hls. peel H mask_oh Hoh.
  destruct (np_unique m) as [labels' label_counts] eqn:Hu.
  injection H as <-. cbn.
  rewrite read_bind_other in Hl by discriminate. apply read_Ok in Hl.
  split; [through_bindings; reflexivity |].
  split; [through_bindings; reflexivity |].
  split; [| split; [reflexivity |]].
  - intros name H1 H2 H3 H4 H5. rewrite !lookup_insert_ne by congruence.
    reflexivity.
  - exists labels, ls. split; [exact Hl |]. split; [exact Hls |].
    through_bindings. reflexivity.
Qed.

Lemma cell_model_frame (s s' : state) :
  cell_model s = Ok s' ->
  (forall name, name <> "fcn_model" -> ns s' !! name = ns s !! name)
  /\ out s' = out s
  /\ exists n, ns s !! "n_labels" = Some (VInt n)
             /\ ns s' !! "fcn_model" = Some (VModel n).
Proof.
  unfold cell_model. intros H. peel H n_labels Hn. peel H n Hi.
  injection H as <-. cbn. split; [| split; [reflexivity |]].
  - intros name H1. rewrite lookup_insert_ne by congruence. reflexivity.
  - exists n. apply read_Ok in Hn.
    destruct n_labels; try discriminate Hi. injection Hi as ->.
    split; [exact Hn | apply lookup_insert_eq].
Qed.

(** The last cell hands [visualize_model] whatever [labels] is bound to
    when it runs. *)
Lemma cell_train_uses_labels (s s' : state) :
  cell_train s = Ok s' ->
  (forall name, name <> "fcn_model" -> ns s' !! name = ns s !! name)
  /\ exists fcn_model dataloaders labels,
       ns s !! "fcn_model" = Some fcn_model
       /\ ns s !! "dataloaders" = Some dataloaders
       /\ ns s !! "labels" = Some labels
       /\ out s' = out s ++ [VisualizeModel fcn_model dataloaders labels].
Proof.
  unfold cell_train. intros H.
  peel H fcn_model Hf. peel H dataloaders Hd.
  rewrite read_bind_name in H. cbn in H.
  rewrite !read_bind_other in H by discriminate.
  rewrite Hd in H. cbn in H.
  peel H labels Hl. injection H as <-. cbn. split.
  - intros name H1. rewrite lookup_insert_ne by congruence. reflexivity.
  - exists fcn_model, dataloaders, labels. apply read_Ok in Hf, Hd, Hl. auto.
Qed.

(** The transforms are built before the rebinding and keep the label set
    they were built with: after a run, the stand-alone [LO] and the one in
    the mask pipeline are both instances over (0, 1, 2). *)
Lemma transforms_keep_configured_labels (m : mask) (s : state) :
  run_all LabelToOnehot_call m = Ok s ->
  ns s !! "LO" = Some (VTransform (mkLabelToOnehot [0; 1; 2]%Z))
  /\ ns s !! "data_transforms"
     = Some (VPipeline 224 (mkLabelToOnehot [0; 1; 2]%Z)).
Proof.
  unfold run_all. intros H.
  peel H s0 H0. peel H s1 H1. peel H s2 H2. peel H s3 H3.
  apply cell_config_labels in H0 as (Hl0 & _ & Hc0 & _).
  apply cell_train_uses_labels in H as (Hfr4 & _).
  apply cell_model_frame in H3 as (Hfr3 & _).
  rewrite !Hfr4, !Hfr3 by discriminate.
  apply cell_inspect_rebinds in H2
    as (_ & _ & Hfr2 & _ & labels2 & ls2 & Hl2 & Hls2 & HLO).
  rewrite (Hfr2 "data_transforms") by discriminate.
  apply cell_loaders_frame in H1
    as (Hfr1 & _ & crop & labels1 & ls1 & Hc1 & Hl1 & Hls1 & Hdt).
  rewrite Hfr1 in Hl2 by discriminate.
  assert (labels1 = VTuple [0; 1; 2]%Z) as -> by congruence.
  assert (labels2 = VTuple [0; 1; 2]%Z) as -> by congruence.
  assert (crop = 224) as -> by congruence.
  cbn in Hls1, Hls2. injection Hls1 as <-. injection Hls2 as <-.
  split; [exact HLO | exact Hdt].
Qed.

(** Out of the notebook's order too: a loaders cell run again after the
    inspection builds its transform over the mask's distinct values. *)
Lemma loaders_after_inspection (m : mask) (s s1 s2 : state) :
  cell_inspect LabelToOnehot_call m s = Ok s1 ->
  cell_loaders s1 = Ok s2 ->
  exists crop,
    ns s2 !! "data_transforms"
    = Some (VPipeline crop (mkLabelToOnehot (np_unique m).1)).
Proof.
  intros Hin Hld.
  apply cell_inspect_rebinds in Hin as (Hl & _).
  apply cell_loaders_frame in Hld
    as (_ & _ & crop & labels & ls & _ & Hl' & Hls & Hdt).
  rewrite Hl in Hl'. injection Hl' as <-. cbn in Hls. injection Hls as <-.
  exists crop. exact Hdt.
Qed.

(** C10: in a run of the notebook, the configuration binds [labels] to
    (0, 1, 2); the inspection cell rebinds it to the array of the distinct
    values of the inspected mask; every use of [labels] after that, the
    printing loop and the final [visualize_model] call, gets that array,
    while [n_labels] and the model keep the configured count of 3. *)
Theorem inspection_rebinds_labels (m : mask) (s : state) :
  run_all LabelToOnehot_call m = Ok s ->
  exists s1 s2 loaders,
    (s0 ← cell_config (mkState ∅ []); cell_loaders s0) = Ok s1
    /\ ns s1 !! "labels" = Some (VTuple [0; 1; 2]%Z)
    /\ cell_inspect LabelToOnehot_call m s1 = Ok s2
    /\ ns s2 !! "labels" = Some (VArray (np_unique m).1)
    /\ ns s !! "labels" = Some (VArray (np_unique m).1)
    /\ ns s !! "n_labels" = Some (VInt 3)
    /\ out s = print_labels (np_unique m).1 (np_unique m).2
               ++ [VisualizeModel (VModel 3) loaders (VArray (np_unique m).1)].
Proof.
  unfold run_all. intros H.
  peel H s0 H0. peel H s1 H1. peel H s2 H2. peel H s3 H3.
  apply cell_config_labels in H0 as Hcfg.
  destruct Hcfg as (Hl0 & Hn0 & _ & Ho0). cbn in Ho0.
  apply cell_loaders_frame in H1 as Hld.
  destruct Hld as (Hfr1 & Ho1 & _).
  apply cell_inspect_rebinds in H2 as Hin.
  destruct Hin as (Hl2 & _ & Hfr2 & Ho2 & _).
  apply cell_model_frame in H3 as Hmd.
  destruct Hmd as (Hfr3 & Ho3 & n & Hn & Hf3).
  apply cell_train_uses_labels in H as Htr.
  destruct Htr as (Hfr4 & fcn & loaders & labels & Hf & Hd & Hl & Ho).
  rewrite Hfr2, Hfr1 in Hn by discriminate.
  rewrite Hfr3, Hl2 in Hl by discriminate.
  assert (n = 3) by congruence. subst n.
  assert (fcn = VModel 3) by congruence. subst fcn.
  injection Hl as <-.
  exists s1, s2, loaders. cbn [mbind result_bind].
  split; [exact H1 |].
  split; [rewrite Hfr1 by discriminate; exact Hl0 |].
  split; [exact H2 |]. split; [exact Hl2 |].
  split; [rewrite Hfr4, Hfr3 by discriminate; exact Hl2 |].
  split.
  - rewrite Hfr4, Hfr3, Hfr2, Hfr1 by discriminate. exact Hn0.
  - rewrite Ho, Ho3, Ho2, Ho1, Ho0. reflexivity.
Qed.

End NotebookFacts.

Lemma inspection_rebinds_labels_witness :
  let m := [[2; 0]; [0; 0]]%Z in
  exists s,
    Notebook.run_all Dataset.call m = Ok s
    /\ Notebook.ns s !! "labels" = Some (Notebook.VArray [0; 2]%Z)
    /\ Notebook.ns s !! "labels" <> Some (Notebook.VTuple [0; 1; 2]%Z)
    /\ exists loaders,
         Notebook.out s
         = [Notebook.PrintLabel 0 3; Notebook.PrintLabel 2 1;
            Notebook.VisualizeModel (Notebook.VModel 3) loaders
              (Notebook.VArray [0; 2]%Z)].
Proof.
  intros m.
  destruct (Notebook.run_all Dataset.call m) as [s | e] eqn:Hrun;
    [| vm_compute in Hrun; discriminate Hrun].
  exists s. split; [reflexivity |].
  destruct (inspection_rebinds_labels Dataset.call m s Hrun)
    as (s1 & s2 & loaders & _ & _ & _ & _ & Hl & _ & Ho).
  change (Numpy.np_unique m) with ([0; 2]%Z, [3; 1]) in Hl, Ho.
  split; [exact Hl |]. split; [rewrite Hl; discriminate |].
  exists loaders. exact Ho.
Defined.

(** * Further properties of the cells *)

(** ** The statistics cell on any list of images *)

Section AggregationFacts.
Import Numpy Estimator Rows.

Lemma broadcast_row_row_of (op : list f64 -> f64) (img : image) :
  broadcastable img = true ->
  broadcast_row 3 (reduce_hw op img) = Ok (row_of op img).
Proof.
  destruct img as [h w px | h w c px]; simpl; [reflexivity |].
  destruct c as [| [| [| [| c]]]]; simpl; try discriminate; reflexivity.
Qed.

Lemma setitem_row_of (op : list f64 -> f64) (img : image) (t : table)
  (pre post : list (list f64)) (old : list f64) :
  ncols t = 3 ->
  rows t = pre ++ old :: post ->
  broadcastable img = true ->
  setitem t (length pre) (reduce_hw op img)
  = Ok (mkTable 3 (pre ++ row_of op img :: post)).
Proof.
  intros Hc Hr Hb. unfold setitem. rewrite Hr, Hc.
  replace (length pre <? length (pre ++ old :: post))%nat with true.
  2: { symmetry. apply Nat.ltb_lt. rewrite length_app. simpl. lia. }
  rewrite broadcast_row_row_of by assumption. simpl.
  rewrite insert_app_r_alt by lia.
  replace (length pre - length pre) with 0 by lia. reflexivity.
Qed.

(** The loop over images numpy can broadcast: row i of each table becomes
    the row of image i, the rows before it are kept. *)
Lemma for_enumerate_rows (rest : list image) :
  forall pre_m pre_s : list (list f64),
    length pre_m = length pre_s ->
    forallb broadcastable rest = true ->
    for_enumerate (length pre_m) rest
      (mkTable 3 (pre_m ++ repeat (repeat (Num 0) 3) (length rest)),
       mkTable 3 (pre_s ++ repeat (repeat (Num 0) 3) (length rest)))
    = Ok (mkTable 3 (pre_m ++ map (row_of np_mean) rest),
          mkTable 3 (pre_s ++ map (row_of np_std) rest)).
Proof.
  induction rest as [| img rest IH]; intros pre_m pre_s Hlen Hall.
  - reflexivity.
  - cbn [forallb] in Hall. apply andb_true_iff in Hall as [Hb Hall].
    cbn [for_enumerate length repeat map]. unfold loop_body. cbn [fst snd].
    unfold np_mean_hw, np_std_hw.
    rewrite (setitem_row_of np_mean img _ pre_m _ (repeat (Num 0) 3))
      by (reflexivity || assumption).
    cbn [mbind result_bind]. rewrite Hlen.
    rewrite (setitem_row_of np_std img _ pre_s _ (repeat (Num 0) 3))
      by (reflexivity || assumption).
    cbn [mbind result_bind].
    specialize (IH (pre_m ++ [row_of np_mean img])
                   (pre_s ++ [row_of np_std img])).
    rewrite !length_app in IH. cbn [length] in IH.
    rewrite <- !app_assoc in IH. cbn [app] in IH.
    replace (S (length pre_s)) with (length pre_m + 1) by lia.
    apply IH; [lia | assumption].
Qed.

Lemma find_means_stds_aggregate (imgs : list image) :
  find_means_stds imgs
  = if forallb broadcastable imgs then Ok (aggregate imgs)
    else Raise ValueError.
Proof.
  destruct (forallb broadcastable imgs) eqn:Hall.
  - unfold find_means_stds, np_zeros_like, np_zeros.
    cbn [rows ncols]. rewrite repeat_length.
    pose proof (for_enumerate_rows imgs [] [] eq_refl Hall) as Hloop.
    cbn [length app] in Hloop. rewrite Hloop. reflexivity.
  - pose proof (find_means_stds_cases imgs) as Hcases.
    destruct (find_means_stds imgs) as [r | e].
    + congruence.
    + destruct Hcases as [_ ->]. reflexivity.
Qed.

Lemma broadcastable_channels (img : image) :
  broadcastable img = true <-> channels img = 1 \/ channels img = 3.
Proof.
  destruct img as [h w px | h w c px]; simpl.
  - split; auto.
  - rewrite orb_true_iff, !Nat.eqb_eq. reflexivity.
Qed.

(** X1: the statistics cell is determined image by image.  It raises
    exactly when some image has a channel count other than 1 or 3, and then
    always ValueError (never IndexError); otherwise it returns the
    column-wise mean and standard deviation of the tables whose row i is
    the broadcast statistic of image i. *)
Theorem find_means_stds_characterised (imgs : list image) :
  (Forall (fun img => channels img = 1 \/ channels img = 3) imgs
   /\ find_means_stds imgs = Ok (aggregate imgs))
  \/ (Exists (fun img => channels img <> 1 /\ channels img <> 3) imgs
      /\ find_means_stds imgs = Raise ValueError).
Proof.
  rewrite find_means_stds_aggregate.
  destruct (forallb broadcastable imgs) eqn:Hall.
  - left. split; [| reflexivity].
    apply Forall_forall. intros img Hin. apply broadcastable_channels.
    rewrite forallb_forall in Hall. apply Hall. apply list_elem_of_In, Hin.
  - right. split; [| reflexivity].
    apply Exists_exists.
    assert (Hex : exists img, In img imgs /\ broadcastable img = false).
    { clear -Hall. induction imgs as [| a imgs IH]; [discriminate |].
      cbn [forallb] in Hall. apply andb_false_iff in Hall as [Ha | Hr].
      - exists a. split; [left; reflexivity | exact Ha].
      - destruct (IH Hr) as (img & Hin & Hb). exists img.
        split; [right; exact Hin | exact Hb]. }
    destruct Hex as (img & Hin & Hb). exists img.
    split; [apply list_elem_of_In, Hin |].
    assert (Hn : ~ (channels img = 1 \/ channels img = 3)).
    { rewrite <- broadcastable_channels. congruence. }
    tauto.
Qed.

Local Open Scope R_scope.

(** *** Sums, means and deviations of numbers and of NaN *)

Lemma fold_fadd_NaN (xs : list f64) : fold_left fadd xs NaN = NaN.
Proof. induction xs as [| x xs IH]; simpl; [reflexivity | exact IH]. Qed.

Lemma fold_fadd_In_NaN (xs : list f64) (a : f64) :
  In NaN xs -> fold_left fadd xs a = NaN.
Proof.
  revert a. induction xs as [| x xs IH]; intros a Hin; [destruct Hin |].
  destruct Hin as [-> | Hin]; simpl.
  - destruct a; apply fold_fadd_NaN.
  - apply IH. exact Hin.
Qed.

Lemma np_mean_In_NaN (xs : list f64) : In NaN xs -> np_mean xs = NaN.
Proof.
  intros Hin. unfold np_mean, fsum. rewrite fold_fadd_In_NaN by exact Hin.
  reflexivity.
Qed.

Lemma np_std_In_NaN (xs : list f64) : In NaN xs -> np_std xs = NaN.
Proof.
  intros Hin. unfold np_std. rewrite (np_mean_In_NaN xs Hin).
  rewrite np_mean_In_NaN; [reflexivity |].
  apply in_map_iff. exists NaN. split; [reflexivity |].
  apply in_map_iff. exists NaN. split; [reflexivity | exact Hin].
Qed.

Lemma fold_fadd_is_num (xs : list f64) (a : R) :
  Forall is_num xs -> is_num (fold_left fadd xs (Num a)).
Proof.
  revert a. induction xs as [| x xs IH]; intros a Hall; simpl; [exact I |].
  inversion Hall as [| ? ? Hx Hxs]; subst. destruct x as [r |]; [| destruct Hx].
  simpl. apply IH. exact Hxs.
Qed.

Lemma np_mean_is_num (xs : list f64) :
  xs <> [] -> Forall is_num xs -> is_num (np_mean xs).
Proof.
  intros Hne Hall. unfold np_mean, fsum.
  pose proof (fold_fadd_is_num xs 0 Hall) as Hs.
  destruct (fold_left fadd xs (Num 0)) as [s |]; [| destruct Hs].
  destruct xs; [congruence | exact I].
Qed.

Lemma np_std_is_num (xs : list f64) :
  xs <> [] -> Forall is_num xs -> is_num (np_std xs).
Proof.
  intros Hne Hall. unfold np_std.
  pose proof (np_mean_is_num xs Hne Hall) as Hm.
  destruct (np_mean xs) as [m |]; [| destruct Hm].
  assert (Hsq : is_num (np_mean (map (fun d => fmul d d)
                                   (map (fun a => fsub a (Num m)) xs)))).
  { apply np_mean_is_num.
    - destruct xs; [congruence | discriminate].
    - rewrite map_map. apply Forall_map.
      eapply Forall_impl; [exact Hall |].
      intros [r |] Hr; [exact I | destruct Hr]. }
  destruct (np_mean _) as [v |]; [exact I | destruct Hsq].
Qed.

Lemma fold_fadd_within (lo hi : R) (xs : list f64) (a : R) :
  Forall (num_within lo hi) xs ->
  num_within (a + INR (length xs) * lo) (a + INR (length xs) * hi)
    (fold_left fadd xs (Num a)).
Proof.
  revert a. induction xs as [| x xs IH]; intros a Hall.
  - simpl. lra.
  - inversion Hall as [| ? ? Hx Hxs]; subst.
    destruct x as [r |]; [| destruct Hx]. simpl in Hx.
    change (length (Num r :: xs)) with (S (length xs)). rewrite S_INR.
    cbn [fold_left fadd]. specialize (IH (a + r) Hxs).
    destruct (fold_left fadd xs (Num (a + r))) as [s |]; [| destruct IH].
    cbn [num_within] in *. lra.
Qed.

(** The mean of numbers between two bounds lies between them. *)
Lemma np_mean_within (lo hi : R) (xs : list f64) :
  xs <> [] -> Forall (num_within lo hi) xs -> num_within lo hi (np_mean xs).
Proof.
  intros Hne Hall. unfold np_mean, fsum.
  pose proof (fold_fadd_within lo hi xs 0 Hall) as Hs.
  destruct (fold_left fadd xs (Num 0)) as [s |]; [| destruct Hs].
  destruct xs as [| x xs]; [congruence |]. cbn [num_within length] in Hs.
  cbn [length fdiv_count num_within].
  set (n := INR (S (length xs))) in *.
  assert (Hn : 0 < n) by (apply lt_0_INR; lia).
  split.
  - apply Rmult_le_reg_r with n; [exact Hn |].
    unfold Rdiv. rewrite Rmult_assoc, Rinv_l by lra. lra.
  - apply Rmult_le_reg_r with n; [exact Hn |].
    unfold Rdiv. rewrite Rmult_assoc, Rinv_l by lra. lra.
Qed.

(** Their standard deviation is a number between 0 and the width of the
    bounds. *)
Lemma np_std_within (lo hi : R) (xs : list f64) :
  xs <> [] -> Forall (num_within lo hi) xs ->
  num_within 0 (hi - lo) (np_std xs).
Proof.
  intros Hne Hall. unfold np_std.
  pose proof (np_mean_within lo hi xs Hne Hall) as Hm.
  destruct (np_mean xs) as [m |]; [| destruct Hm]. simpl in Hm.
  assert (Hsq : num_within 0 ((hi - lo) * (hi - lo))
                  (np_mean (map (fun d => fmul d d)
                              (map (fun a => fsub a (Num m)) xs)))).
  { apply np_mean_within.
    - destruct xs; [congruence | discriminate].
    - rewrite map_map. apply Forall_map.
      eapply Forall_impl; [exact Hall |].
      intros [r |] Hr; [| destruct Hr]. cbn [fsub fmul num_within] in *.
      assert (0 <= (hi - lo - (r - m)) * (hi - lo + (r - m)))
        by (apply Rmult_le_pos; lra).
      replace ((hi - lo - (r - m)) * (hi - lo + (r - m)))
        with ((hi - lo) * (hi - lo) - (r - m) * (r - m)) in H by ring.
      pose proof (Rle_0_sqr (r - m)) as Hsq. unfold Rsqr in Hsq.
      split; lra. }
  destruct (np_mean _) as [v |]; [| destruct Hsq]. simpl in *.
  split; [apply sqrt_pos |].
  rewrite <- (sqrt_square (hi - lo)) by lra.
  apply sqrt_le_1_alt. lra.
Qed.

(** *** Planes, rows and columns *)

Lemma plane_length (h w : nat) (f : nat -> nat -> Z) :
  length (plane h w f) = (h * w)%nat.
Proof.
  unfold plane. generalize 0%nat at 2.
  induction h as [| h IH]; intros y0; cbn [seq flat_map]; [reflexivity |].
  rewrite length_app, length_map, length_seq, IH. reflexivity.
Qed.

Lemma plane_Forall (P : f64 -> Prop) (h w : nat) (f : nat -> nat -> Z) :
  (forall y x, (y < h)%nat -> (x < w)%nat -> P (Num (IZR (f y x)))) ->
  Forall P (plane h w f).
Proof.
  intros HP. apply Forall_forall. intros a Ha. apply list_elem_of_In in Ha.
  unfold plane in Ha. apply in_flat_map in Ha as (y & Hy & Ha).
  apply in_map_iff in Ha as (x & <- & Hx).
  apply in_seq in Hy, Hx. apply HP; lia.
Qed.

Lemma plane_nonempty (h w : nat) (f : nat -> nat -> Z) :
  (0 < h)%nat -> (0 < w)%nat -> plane h w f <> [].
Proof.
  intros Hh Hw Hnil. apply (f_equal (@length f64)) in Hnil.
  rewrite plane_length in Hnil. simpl in Hnil. nia.
Qed.

Lemma plane_empty (h w : nat) (f : nat -> nat -> Z) :
  h = 0%nat \/ w = 0%nat -> plane h w f = [].
Proof.
  intros Hz. apply length_zero_iff_nil. rewrite plane_length. nia.
Qed.

Lemma column_map (f : image -> list f64) (k : nat) (imgs : list image) :
  column k (mkTable 3 (map f imgs)) = map (fun img => nth k (f img) NaN) imgs.
Proof. unfold column. cbn [rows]. apply map_map. Qed.

Lemma aggregate_columns (imgs : list image) :
  aggregate imgs
  = (map (fun k => np_mean (map (fun img => nth k (row_of np_mean img) NaN)
                               imgs)) [0; 1; 2]%nat,
     map (fun k => np_std (map (fun img => nth k (row_of np_std img) NaN)
                              imgs)) [0; 1; 2]%nat).
Proof.
  unfold aggregate, np_mean_axis0, np_std_axis0. cbn [ncols seq map].
  rewrite !column_map. reflexivity.
Qed.

Lemma row_of_length (op : list f64 -> f64) (img : image) :
  broadcastable img = true -> length (row_of op img) = 3%nat.
Proof.
  destruct img as [h w px | h w c px]; simpl; [reflexivity |].
  destruct c as [| [| [| [| c]]]]; simpl; try discriminate; reflexivity.
Qed.

(** Each entry of a row is the statistic of one plane of the image. *)
Lemma row_of_planes (op : list f64 -> f64) (img : image) (a : f64) :
  broadcastable img = true ->
  In a (row_of op img) -> exists pl, In pl (planes img) /\ a = op pl.
Proof.
  destruct img as [h w px | h w c px]; simpl.
  - intros _ Ha. exists (plane h w px).
    split; [left; reflexivity | intuition congruence].
  - destruct c as [| [| [| [| c]]]]; simpl; try discriminate; intros _ Ha.
    + exists (plane h w (fun y x => px y x 0%nat)).
      split; [left; reflexivity | intuition congruence].
    + destruct Ha as [<- | [<- | [<- | []]]]; eexists; split;
        try reflexivity; simpl; auto.
Qed.

Lemma planes_nonempty (img : image) (pl : list f64) :
  has_pixels img -> In pl (planes img) -> pl <> [].
Proof.
  destruct img as [h w px | h w c px]; simpl; intros [Hh Hw] Hin.
  - destruct Hin as [<- | []]. apply plane_nonempty; assumption.
  - apply in_map_iff in Hin as (k & <- & _). apply plane_nonempty; assumption.
Qed.

Lemma planes_empty (img : image) (pl : list f64) :
  no_pixels img -> In pl (planes img) -> pl = [].
Proof.
  destruct img as [h w px | h w c px]; simpl; intros Hz Hin.
  - destruct Hin as [<- | []]. apply plane_empty; assumption.
  - apply in_map_iff in Hin as (k & <- & _). apply plane_empty; assumption.
Qed.

Lemma planes_is_num (img : image) (pl : list f64) :
  In pl (planes img) -> Forall is_num pl.
Proof.
  destruct img as [h w px | h w c px]; simpl; intros Hin.
  - destruct Hin as [<- | []]. apply plane_Forall. intros; exact I.
  - apply in_map_iff in Hin as (k & <- & _).
    apply plane_Forall. intros; exact I.
Qed.

Lemma planes_within (lo hi : Z) (img : image) (pl : list f64) :
  entries_within lo hi img -> In pl (planes img) ->
  Forall (num_within (IZR lo) (IZR hi)) pl.
Proof.
  destruct img as [h w px | h w c px]; simpl; intros Hin Hpl.
  - destruct Hpl as [<- | []]. apply plane_Forall. intros y x Hy Hx.
    simpl. specialize (Hin y x Hy Hx). split; apply IZR_le; lia.
  - apply in_map_iff in Hpl as (k & <- & Hk). apply in_seq in Hk.
    apply plane_Forall. intros y x Hy Hx. simpl.
    specialize (Hin y x k Hy Hx ltac:(lia)). split; apply IZR_le; lia.
Qed.

(** Column k < 3 of a table of rows: what holds of every entry of every
    row holds of every entry of the column. *)
Lemma column_Forall (P : f64 -> Prop) (op : list f64 -> f64)
  (imgs : list image) (k : nat) :
  (k < 3)%nat ->
  Forall (fun img => broadcastable img = true
                     /\ Forall P (row_of op img)) imgs ->
  Forall P (map (fun img => nth k (row_of op img) NaN) imgs).
Proof.
  intros Hk Hall. apply Forall_map.
  eapply Forall_impl; [exact Hall |]. intros img [Hb Hrow]. cbn.
  rewrite Forall_forall in Hrow. apply Hrow. apply list_elem_of_In.
  apply nth_In. rewrite row_of_length by exact Hb. exact Hk.
Qed.

Lemma map_nonempty {A B : Type} (f : A -> B) (l : list A) :
  l <> [] -> map f l <> [].
Proof. destruct l; [congruence | discriminate]. Qed.

Lemma forallb_broadcastable (imgs : list image) :
  Forall (fun img => channels img = 1%nat \/ channels img = 3%nat) imgs ->
  forallb broadcastable imgs = true.
Proof.
  intros Hall. apply forallb_forall. intros img Hin.
  rewrite Forall_forall in Hall. apply broadcastable_channels.
  apply Hall. apply list_elem_of_In, Hin.
Qed.

(** X2: whenever the statistics cell returns, channel_means and
    channel_stds have exactly three entries each, whatever the number of
    images (none included) and whatever their channel counts. *)
Theorem find_means_stds_three_entries (imgs : list image)
  (channel_means channel_stds : list f64) :
  find_means_stds imgs = Ok (channel_means, channel_stds) ->
  length channel_means = 3%nat /\ length channel_stds = 3%nat.
Proof.
  rewrite find_means_stds_aggregate.
  destruct (forallb broadcastable imgs); [| discriminate].
  rewrite aggregate_columns. intros [= <- <-]. split; reflexivity.
Qed.

Lemma find_means_stds_three_entries_witness :
  exists ms ss,
    find_means_stds [Gray 2 1 (fun y _ => Z.of_nat y)] = Ok (ms, ss)
    /\ length ms = 3%nat /\ length ss = 3%nat.
Proof.
  eexists _, _. split; [reflexivity |].
  eapply (find_means_stds_three_entries [Gray 2 1 (fun y _ => Z.of_nat y)]).
  reflexivity.
Defined.

Lemma single_channel_row (op : list f64 -> f64) (img : image) :
  channels img = 1%nat -> row_of op img = repeat (single_stat op img) 3.
Proof.
  destruct img as [h w px | h w c px]; simpl; [reflexivity |].
  intros ->. reflexivity.
Qed.

(** X3: on images that all have a single channel (greyscale arrays, or a
    channel axis of length 1) the cell does not raise: the one statistic
    of each image fills its whole row, so the three returned means are one
    value, the mean of the per-image means, and the three returned
    standard deviations are one value too. *)
Theorem single_channel_stats (imgs : list image) :
  Forall (fun img => channels img = 1%nat) imgs ->
  find_means_stds imgs
  = Ok (repeat (np_mean (map (single_stat np_mean) imgs)) 3,
        repeat (np_std (map (single_stat np_std) imgs)) 3).
Proof.
  intros Hall. rewrite find_means_stds_aggregate, forallb_broadcastable.
  2: { eapply Forall_impl; [exact Hall |]. cbn. auto. }
  rewrite aggregate_columns. cbn [map repeat].
  assert (Hcol : forall op k, (k < 3)%nat ->
            map (fun img => nth k (row_of op img) NaN) imgs
            = map (single_stat op) imgs).
  { intros op k Hk. apply map_ext_in. intros img Hin.
    rewrite Forall_forall in Hall.
    rewrite single_channel_row by (apply Hall, list_elem_of_In, Hin).
    do 3 (destruct k as [| k]; [reflexivity |]). lia. }
  rewrite !Hcol by lia. reflexivity.
Qed.

Lemma single_channel_stats_witness :
  let imgs := [Gray 1 2 (fun _ x => Z.of_nat x);
               Color 1 1 1 (fun _ _ _ => 9%Z)] in
  find_means_stds imgs
  = Ok (repeat (np_mean (map (single_stat np_mean) imgs)) 3,
        repeat (np_std (map (single_stat np_std) imgs)) 3).
Proof.
  intros imgs. apply (single_channel_stats imgs).
  repeat constructor.
Defined.

(** X4: an image without pixels (height or width 0) among images of one
    or three channels turns all six results into NaN, whatever the other
    images hold; the cell still raises nothing. *)
Theorem image_without_pixels_gives_nan (imgs : list image) :
  Forall (fun img => channels img = 1%nat \/ channels img = 3%nat) imgs ->
  Exists no_pixels imgs ->
  find_means_stds imgs = Ok ([NaN; NaN; NaN], [NaN; NaN; NaN]).
Proof.
  intros Hall Hex. rewrite find_means_stds_aggregate, forallb_broadcastable
    by exact Hall.
  rewrite aggregate_columns. cbn [map].
  apply Exists_exists in Hex as (img & Hin & Hno).
  apply list_elem_of_In in Hin.
  assert (Hb : broadcastable img = true).
  { apply broadcastable_channels. rewrite Forall_forall in Hall.
    apply Hall. apply list_elem_of_In, Hin. }
  assert (Hcol : forall op k, op [] = NaN -> (k < 3)%nat ->
            In NaN (map (fun img => nth k (row_of op img) NaN) imgs)).
  { intros op k Hop Hk. apply in_map_iff. exists img. split; [| exact Hin].
    assert (Hk' : In (nth k (row_of op img) NaN) (row_of op img))
      by (apply nth_In; rewrite row_of_length by exact Hb; exact Hk).
    apply row_of_planes in Hk' as (pl & Hpl & ->); [| exact Hb].
    rewrite (planes_empty img pl Hno Hpl). exact Hop. }
  rewrite !np_mean_In_NaN by (apply Hcol; [reflexivity | lia]).
  rewrite !np_std_In_NaN by (apply Hcol; [reflexivity | lia]).
  reflexivity.
Qed.

Lemma image_without_pixels_gives_nan_witness :
  find_means_stds [Color 2 2 3 (fun _ _ _ => 7%Z);
                   Color 0 5 3 (fun _ _ _ => 7%Z)]
  = Ok ([NaN; NaN; NaN], [NaN; NaN; NaN]).
Proof.
  apply image_without_pixels_gives_nan.
  - constructor; [right; reflexivity |].
    constructor; [right; reflexivity | constructor].
  - apply Exists_cons_tl, Exists_cons_hd. simpl. auto.
Defined.

Lemma rows_within (lo hi : Z) (imgs : list image) :
  Forall (fun img => (channels img = 1%nat \/ channels img = 3%nat)
                     /\ has_pixels img /\ entries_within lo hi img) imgs ->
  Forall (fun img => broadcastable img = true
            /\ Forall (num_within (IZR lo) (IZR hi)) (row_of np_mean img))
    imgs
  /\ Forall (fun img => broadcastable img = true
            /\ Forall (num_within 0 (IZR hi - IZR lo)) (row_of np_std img))
      imgs.
Proof.
  intros Hall. split; (eapply Forall_impl; [exact Hall |]);
    intros img (Hc & Hpx & Hin); apply broadcastable_channels in Hc;
    (split; [exact Hc |]); apply Forall_forall; intros a Ha;
    apply list_elem_of_In in Ha;
    apply row_of_planes in Ha as (pl & Hpl & ->); try exact Hc.
  - apply np_mean_within;
      [eapply planes_nonempty | eapply planes_within]; eassumption.
  - apply np_std_within;
      [eapply planes_nonempty | eapply planes_within]; eassumption.
Qed.

(** X5: on a non-empty list of images with one or three channels, each
    with at least one pixel and all entries between lo and hi, every
    returned mean is a number between lo and hi and every returned standard
    deviation a number between 0 and hi - lo: no NaN, and for byte images
    nothing outside 0..255. *)
Theorem channel_stats_within_bounds (lo hi : Z) (imgs : list image) :
  imgs <> [] ->
  Forall (fun img => (channels img = 1%nat \/ channels img = 3%nat)
                     /\ has_pixels img /\ entries_within lo hi img) imgs ->
  exists channel_means channel_stds,
    find_means_stds imgs = Ok (channel_means, channel_stds)
    /\ Forall (num_within (IZR lo) (IZR hi)) channel_means
    /\ Forall (num_within 0 (IZR hi - IZR lo)) channel_stds.
Proof.
  intros Hne Hall. rewrite find_means_stds_aggregate, forallb_broadcastable.
  2: { eapply Forall_impl; [exact Hall |]. cbn. tauto. }
  rewrite aggregate_columns. eexists _, _. split; [reflexivity |].
  destruct (rows_within lo hi imgs Hall) as [Hm Hs]. cbn [map]. split.
  - repeat constructor;
      (apply np_mean_within;
       [apply map_nonempty, Hne | apply column_Forall; [lia | exact Hm]]).
  - replace (IZR hi - IZR lo) with (IZR hi - IZR lo - 0) at 1 by lra.
    repeat constructor;
      (apply np_std_within;
       [apply map_nonempty, Hne | apply column_Forall; [lia | exact Hs]]).
Qed.

Lemma channel_stats_within_bounds_witness :
  exists channel_means channel_stds,
    find_means_stds [Color 1 2 3 (fun _ x k => Z.of_nat (100 * x + k));
                     Gray 1 1 (fun _ _ => 255%Z)]
    = Ok (channel_means, channel_stds)
    /\ Forall (num_within 0 255) channel_means
    /\ Forall (num_within 0 (255 - 0)) channel_stds.
Proof.
  apply (channel_stats_within_bounds 0 255).
  - discriminate.
  - constructor; [| constructor; [| constructor]].
    + split; [right; reflexivity |]. split; [simpl; lia |].
      simpl. intros y x k Hy Hx Hk. lia.
    + split; [left; reflexivity |]. split; [simpl; lia |].
      simpl. intros y x Hy Hx. lia.
Defined.

(** X6: on a list of one image with pixels and one or three channels,
    channel_means is that image's own row of per-channel means and
    channel_stds is 0 in every channel, whatever the image shows: each
    column holds one value, whose mean is itself and whose deviation from
    it is 0. *)
Theorem single_image_stats (img : image) :
  channels img = 1%nat \/ channels img = 3%nat ->
  has_pixels img ->
  find_means_stds [img]
  = Ok (row_of np_mean img, [Num 0; Num 0; Num 0]).
Proof.
  intros Hc Hpx. apply broadcastable_channels in Hc as Hb.
  rewrite find_means_stds_aggregate. cbn [forallb]. rewrite Hb. cbn [andb].
  rewrite aggregate_columns. cbn [map].
  assert (Hnum : forall op k,
            (forall pl, pl <> [] -> Forall is_num pl -> is_num (op pl)) ->
            (k < 3)%nat -> is_num (nth k (row_of op img) NaN)).
  { intros op k Hop Hk.
    assert (Hk' : In (nth k (row_of op img) NaN) (row_of op img))
      by (apply nth_In; rewrite row_of_length by exact Hb; exact Hk).
    apply row_of_planes in Hk' as (pl & Hpl & ->); [| exact Hb].
    apply Hop; [eapply planes_nonempty | eapply planes_is_num]; eassumption. }
  pose proof (row_of_length np_mean img Hb) as Hlen.
  pose proof (Hnum np_mean 0%nat np_mean_is_num ltac:(lia)) as Hm0.
  pose proof (Hnum np_mean 1%nat np_mean_is_num ltac:(lia)) as Hm1.
  pose proof (Hnum np_mean 2%nat np_mean_is_num ltac:(lia)) as Hm2.
  pose proof (Hnum np_std 0%nat np_std_is_num ltac:(lia)) as Hs0.
  pose proof (Hnum np_std 1%nat np_std_is_num ltac:(lia)) as Hs1.
  pose proof (Hnum np_std 2%nat np_std_is_num ltac:(lia)) as Hs2.
  destruct (row_of np_mean img) as [| [m0 |] [| [m1 |] [| [m2 |] [| ? ?]]]];
    try discriminate Hlen; cbn [nth is_num] in Hm0, Hm1, Hm2; try tauto.
  cbn [nth].
  destruct (nth 0 (row_of np_std img) NaN) as [s0 |]; [| destruct Hs0].
  destruct (nth 1 (row_of np_std img) NaN) as [s1 |]; [| destruct Hs1].
  destruct (nth 2 (row_of np_std img) NaN) as [s2 |]; [| destruct Hs2].
  assert (Hmean : forall r, np_mean [Num r] = Num r)
    by (intros r; apply (np_mean_repeat r 1); lia).
  assert (Hstd : forall r, np_std [Num r] = Num 0)
    by (intros r; apply (np_std_repeat r 1); lia).
  rewrite !Hmean, !Hstd. reflexivity.
Qed.

Lemma single_image_stats_witness :
  find_means_stds [Color 1 2 3 (fun _ x k => Z.of_nat (x + k))]
  = Ok (row_of np_mean (Color 1 2 3 (fun _ x k => Z.of_nat (x + k))),
        [Num 0; Num 0; Num 0]).
Proof.
  apply single_image_stats.
  - right. reflexivity.
  - simpl. lia.
Defined.

End AggregationFacts.

(** ** The inspection cell and the order of the cells *)

Section InspectionFacts.
Import Numpy Dataset Notebook.
Local Open Scope Z_scope.

Variable LabelToOnehot_call : LabelToOnehot -> mask -> result onehot.

(** Filing a value into a sorted table of counts raises the count of that
    value by one and leaves the others. *)
Lemma count_in_counts (f : Z -> nat) (x : Z) (acc : list (Z * nat)) :
  StronglySorted Z.lt acc.*1 ->
  (forall y c, (y, c) ∈ acc -> c = f y) ->
  (x ∉ acc.*1 -> f x = 0%nat) ->
  forall y c, (y, c) ∈ count_in x acc ->
    c = if decide (y = x) then S (f y) else f y.
Proof.
  induction acc as [| [y0 c0] acc IH]; intros Hs Hacc Hx y c Hin.
  - cbn in Hin. apply list_elem_of_singleton in Hin. injection Hin as -> ->.
    rewrite decide_True by reflexivity. rewrite Hx; [reflexivity |].
    cbn. apply not_elem_of_nil.
  - cbn in Hs. apply StronglySorted_inv in Hs as [Hs Hgt].
    assert (Hkeys : forall y' c', (y', c') ∈ acc -> y0 < y').
    { intros y' c' H'. rewrite Forall_forall in Hgt. apply Hgt.
      apply (list_elem_of_fmap_2 fst) in H'. exact H'. }
    cbn [count_in] in Hin.
    destruct (Z.ltb_spec x y0) as [Hlt | Hge].
    + apply elem_of_cons in Hin as [Heq | Hin].
      * injection Heq as -> ->. rewrite decide_True by reflexivity.
        rewrite Hx; [reflexivity |]. cbn. intros Hmem.
        apply elem_of_cons in Hmem as [-> | Hmem]; [lia |].
        rewrite Forall_forall in Hgt. specialize (Hgt _ Hmem). lia.
      * rewrite decide_False; [apply Hacc, Hin |].
        apply elem_of_cons in Hin as [Heq | Hin].
        -- injection Heq as -> ->. lia.
        -- specialize (Hkeys _ _ Hin). lia.
    + destruct (Z.eqb_spec x y0) as [-> | Hne].
      * apply elem_of_cons in Hin as [Heq | Hin].
        -- injection Heq as -> ->. rewrite decide_True by reflexivity.
           f_equal. apply Hacc. left.
        -- specialize (Hkeys _ _ Hin). rewrite decide_False by lia.
           apply Hacc. right. exact Hin.
      * apply elem_of_cons in Hin as [Heq | Hin].
        -- injection Heq as -> ->. rewrite decide_False by lia.
           apply Hacc. left.
        -- apply (IH Hs); [| | exact Hin].
           ++ intros y' c' H'. apply Hacc. right. exact H'.
           ++ intros Hnot. apply Hx. cbn. intros Hmem.
              apply elem_of_cons in Hmem as [-> | Hmem]; [lia | tauto].
Qed.

(** Each count [np.unique] returns is the number of occurrences of its
    value. *)
Lemma unique_counts_count_occ (flat : list Z) :
  forall y c, (y, c) ∈ unique_counts flat -> c = count_occ Z.eq_dec flat y.
Proof.
  induction flat as [| a flat IH]; intros y c Hin.
  - cbn in Hin. inversion Hin.
  - unfold unique_counts in Hin. cbn [foldr] in Hin.
    fold (unique_counts flat) in Hin.
    apply (count_in_counts (count_occ Z.eq_dec flat)) in Hin.
    + subst c. cbn [count_occ].
      destruct (decide (y = a)) as [Hya | Hne];
        destruct (Z.eq_dec a y) as [Heq | Hne']; congruence.
    + apply unique_counts_sorted.
    + exact IH.
    + intros Hnot. apply count_occ_not_In. intros Hmem. apply Hnot.
      apply unique_counts_keys. apply list_elem_of_In. exact Hmem.
Qed.

Lemma count_in_total (x : Z) (acc : list (Z * nat)) :
  sum_list (count_in x acc).*2 = S (sum_list acc.*2).
Proof.
  induction acc as [| [y c] acc IH]; cbn [count_in]; [reflexivity |].
  destruct (x <? y); [reflexivity |].
  destruct (x =? y); [reflexivity |].
  cbn in *. rewrite IH. lia.
Qed.

Lemma unique_counts_total (flat : list Z) :
  sum_list (unique_counts flat).*2 = length flat.
Proof.
  unfold unique_counts. induction flat as [| a flat IH]; cbn [foldr].
  - reflexivity.
  - rewrite count_in_total, IH. reflexivity.
Qed.

Lemma print_labels_unique (m : mask) :
  print_labels (np_unique m).1 (np_unique m).2
  = map (fun l => PrintLabel l (count_occ Z.eq_dec (concat m) l))
      (np_unique m).1.
Proof.
  unfold print_labels, np_unique. cbn [fst snd]. rewrite zip_fst_snd.
  pose proof (unique_counts_count_occ (concat m)) as Hc.
  induction (unique_counts (concat m)) as [| [y c] l IH]; [reflexivity |].
  cbn. f_equal.
  - f_equal. apply Hc. left.
  - apply IH. intros y' c' H'. apply Hc. right. exact H'.
Qed.

(** X8: when the inspection cell completes, whatever [labels] was bound
    to before, it is bound to an array that lists exactly the values
    occurring in the mask, each once, in strictly increasing order. *)
Theorem inspection_labels_are_mask_values (m : mask) (s s' : state) :
  cell_inspect LabelToOnehot_call m s = Ok s' ->
  exists ls,
    ns s' !! "labels" = Some (VArray ls)
    /\ StronglySorted Z.lt ls
    /\ forall x, x ∈ ls <-> exists row, row ∈ m /\ x ∈ row.
Proof.
  intros H. apply cell_inspect_rebinds in H as (Hl & _).
  exists (np_unique m).1. split; [exact Hl |].
  apply np_unique_distinct_values.
Qed.

(** X9: when the inspection cell completes, it has printed one line per
    distinct value of the mask, in increasing order of the value, with the
    number of pixels of the mask that hold that value; the printed counts
    add up to the number of pixels. *)
Theorem inspection_prints_pixel_counts (m : mask) (s s' : state) :
  cell_inspect LabelToOnehot_call m s = Ok s' ->
  out s' = out s
           ++ map (fun l => PrintLabel l (count_occ Z.eq_dec (concat m) l))
                (np_unique m).1
  /\ ns s' !! "label_counts" = Some (VCounts (np_unique m).2)
  /\ sum_list (np_unique m).2 = length (concat m).
Proof.
  intros H. apply cell_inspect_rebinds in H as (_ & Hc & _ & Ho & _).
  rewrite Ho, print_labels_unique.
  split; [reflexivity |]. split; [exact Hc |].
  apply unique_counts_total.
Qed.

(** *** What each cell needs to complete *)

Lemma cell_config_completes (s : state) :
  cell_config s
  = Ok (bind_name "n_labels" (VInt 3)
          (bind_name "labels" (VTuple [0; 1; 2])
             (bind_name "crop_size" (VInt 224) s))).
Proof. unfold cell_config. rewrite read_bind_name. reflexivity. Qed.

Lemma cell_loaders_completes (s : state) (crop : nat) (labels : value)
  (ls : list Z) :
  ns s !! "crop_size" = Some (VInt crop) ->
  ns s !! "labels" = Some labels ->
  as_labels labels = Ok ls ->
  cell_loaders s
  = Ok (bind_name "dataloaders"
          (VLoader (VDataset labels (VPipeline crop (mkLabelToOnehot ls))))
          (bind_name "image_datasets"
             (VDataset labels (VPipeline crop (mkLabelToOnehot ls)))
             (bind_name "data_transforms"
                (VPipeline crop (mkLabelToOnehot ls)) s))).
Proof.
  intros Hc Hl Hls. apply read_Ok in Hc, Hl. unfold cell_loaders.
  rewrite Hc. cbn. rewrite Hl. cbn. rewrite Hls. cbn.
  rewrite (read_bind_other "labels"), Hl by discriminate. cbn.
  rewrite read_bind_name. cbn. rewrite read_bind_name. reflexivity.
Qed.

(** The first two cells from a fresh kernel. *)
Lemma config_then_loaders :
  exists s1,
    (s0 ← cell_config (mkState ∅ []); cell_loaders s0) = Ok s1
    /\ ns s1 !! "labels" = Some (VTuple [0; 1; 2])
    /\ ns s1 !! "n_labels" = Some (VInt 3)
    /\ ns s1 !! "data_transforms"
       = Some (VPipeline 224 (mkLabelToOnehot [0; 1; 2]))
    /\ ns s1 !! "image_datasets"
       = Some (VDataset (VTuple [0; 1; 2])
                 (VPipeline 224 (mkLabelToOnehot [0; 1; 2])))
    /\ ns s1 !! "dataloaders"
       = Some (VLoader (VDataset (VTuple [0; 1; 2])
                          (VPipeline 224 (mkLabelToOnehot [0; 1; 2]))))
    /\ out s1 = [].
Proof.
  rewrite cell_config_completes. cbn [mbind result_bind].
  erewrite (cell_loaders_completes _ 224 (VTuple [0; 1; 2]) [0; 1; 2]);
    [| cbn; through_bindings; reflexivity
     | cbn; through_bindings; reflexivity | reflexivity].
  eexists. split; [reflexivity |]. cbn. through_bindings.
  repeat split; reflexivity.
Qed.

(** X10: rebinding [labels] does not reach what was built from it before.
    After a completed run in notebook order the stand-alone transform
    [LO], the transform inside the mask pipeline and the label set given
    to the dataset are still the configured (0, 1, 2), although [labels]
    itself now holds the mask's distinct values. *)
Theorem built_objects_keep_configured_labels (m : mask) (s : state) :
  run_all LabelToOnehot_call m = Ok s ->
  ns s !! "LO" = Some (VTransform (mkLabelToOnehot [0; 1; 2]))
  /\ ns s !! "data_transforms"
     = Some (VPipeline 224 (mkLabelToOnehot [0; 1; 2]))
  /\ ns s !! "image_datasets"
     = Some (VDataset (VTuple [0; 1; 2])
               (VPipeline 224 (mkLabelToOnehot [0; 1; 2])))
  /\ ns s !! "labels" = Some (VArray (np_unique m).1).
Proof.
  unfold run_all. intros H.
  destruct config_then_loaders
    as (s1 & H01 & Hl1 & _ & Hdt1 & Hds1 & _ & _).
  destruct (cell_config (mkState ∅ [])) as [s0 |]; [| discriminate H01].
  cbn [mbind result_bind] in H, H01. rewrite H01 in H.
  cbn [mbind result_bind] in H.
  peel H s2 H2. peel H s3 H3.
  apply cell_train_uses_labels in H as (Hfr4 & _).
  apply cell_model_frame in H3 as (Hfr3 & _).
  apply cell_inspect_rebinds in H2
    as (Hl2 & _ & Hfr2 & _ & labels & ls & Hl & Hls & HLO).
  rewrite Hl1 in Hl. injection Hl as <-. cbn in Hls. injection Hls as <-.
  rewrite !Hfr4, !Hfr3 by discriminate.
  rewrite (Hfr2 "data_transforms"), (Hfr2 "image_datasets") by discriminate.
  auto.
Qed.

(** X11: run out of the notebook's order, the cells pick the rebinding
    up.  After the inspection cell has completed, a loaders cell run again
    builds the pipeline transform and the dataset over the mask's distinct
    values, and an inspection cell run again builds [LO] over them. *)
Theorem cells_rerun_after_inspection (m m' : mask) (s s1 s2 s3 : state) :
  cell_inspect LabelToOnehot_call m s = Ok s1 ->
  cell_loaders s1 = Ok s2 ->
  cell_inspect LabelToOnehot_call m' s1 = Ok s3 ->
  (exists crop,
      ns s2 !! "data_transforms"
      = Some (VPipeline crop (mkLabelToOnehot (np_unique m).1))
      /\ ns s2 !! "image_datasets"
         = Some (VDataset (VArray (np_unique m).1)
                   (VPipeline crop (mkLabelToOnehot (np_unique m).1))))
  /\ ns s3 !! "LO" = Some (VTransform (mkLabelToOnehot (np_unique m).1)).
Proof.
  intros Hin Hld Hin'.
  apply cell_inspect_rebinds in Hin as (Hl & _). split.
  - apply cell_loaders_frame in Hld as Hfr.
    destruct Hfr as (_ & _ & crop & labels & ls & Hc & Hl' & Hls & _).
    rewrite Hl in Hl'. injection Hl' as <-. cbn in Hls. injection Hls as <-.
    rewrite (cell_loaders_completes s1 crop (VArray (np_unique m).1)
               (np_unique m).1 Hc Hl eq_refl) in Hld.
    injection Hld as <-. exists crop. cbn. through_bindings. auto.
  - apply cell_inspect_rebinds in Hin'
      as (_ & _ & _ & _ & labels & ls & Hl' & Hls & HLO).
    rewrite Hl in Hl'. injection Hl' as <-. cbn in Hls. injection Hls as <-.
    exact HLO.
Qed.

End InspectionFacts.

Lemma inspection_labels_are_mask_values_witness :
  let m := [[2; 0]; [0; 2]]%Z in
  let s := Notebook.bind_name "labels" (Notebook.VTuple [0; 1; 2]%Z)
             (Notebook.mkState ∅ []) in
  exists s' ls,
    Notebook.cell_inspect Dataset.call m s = Ok s'
    /\ Notebook.ns s' !! "labels" = Some (Notebook.VArray ls)
    /\ StronglySorted Z.lt ls
    /\ forall x, x ∈ ls <-> exists row, row ∈ m /\ x ∈ row.
Proof.
  intros m s.
  destruct (Notebook.cell_inspect Dataset.call m s) as [s' | e] eqn:Hrun;
    [| vm_compute in Hrun; discriminate Hrun].
  destruct (inspection_labels_are_mask_values Dataset.call m s s' Hrun)
    as (ls & H). exists s', ls. split; [reflexivity | exact H].
Defined.

Lemma inspection_prints_pixel_counts_witness :
  let m := [[2; 0]; [0; 2]; [0; 0]]%Z in
  let s := Notebook.bind_name "labels" (Notebook.VTuple [0; 1; 2]%Z)
             (Notebook.mkState ∅ []) in
  exists s',
    Notebook.cell_inspect Dataset.call m s = Ok s'
    /\ Notebook.out s' = [Notebook.PrintLabel 0 4; Notebook.PrintLabel 2 2].
Proof.
  intros m s.
  destruct (Notebook.cell_inspect Dataset.call m s) as [s' | e] eqn:Hrun;
    [| vm_compute in Hrun; discriminate Hrun].
  exists s'. split; [reflexivity |].
  destruct (inspection_prints_pixel_counts Dataset.call m s s' Hrun)
    as (Ho & _). rewrite Ho. reflexivity.
Defined.

Lemma built_objects_keep_configured_labels_witness :
  let m := [[2; 0]; [0; 0]]%Z in
  exists s,
    Notebook.run_all Dataset.call m = Ok s
    /\ Notebook.ns s !! "LO"
       = Some (Notebook.VTransform (Dataset.mkLabelToOnehot [0; 1; 2]%Z))
    /\ Notebook.ns s !! "labels" = Some (Notebook.VArray [0; 2]%Z).
Proof.
  intros m.
  destruct (Notebook.run_all Dataset.call m) as [s | e] eqn:Hrun;
    [| vm_compute in Hrun; discriminate Hrun].
  exists s. split; [reflexivity |].
  destruct (built_objects_keep_configured_labels Dataset.call m s Hrun)
    as (HLO & _ & _ & Hl). split; [exact HLO | exact Hl].
Defined.

Lemma cells_rerun_after_inspection_witness :
  let m := [[2; 0]; [0; 0]]%Z in
  let s := Notebook.bind_name "crop_size" (Notebook.VInt 224)
             (Notebook.bind_name "labels" (Notebook.VTuple [0; 1; 2]%Z)
                (Notebook.mkState ∅ [])) in
  exists s1 s2 s3,
    Notebook.cell_inspect Dataset.call m s = Ok s1
    /\ Notebook.cell_loaders s1 = Ok s2
    /\ Notebook.cell_inspect Dataset.call m s1 = Ok s3
    /\ Notebook.ns s3 !! "LO"
       = Some (Notebook.VTransform (Dataset.mkLabelToOnehot [0; 2]%Z)).
Proof.
  intros m s.
  destruct (Notebook.cell_inspect Dataset.call m s) as [s1 | e] eqn:H1;
    [| vm_compute in H1; discriminate H1].
  destruct (Notebook.cell_loaders s1) as [s2 | e] eqn:H2.
  2: { injection H1 as <-. vm_compute in H2. discriminate H2. }
  destruct (Notebook.cell_inspect Dataset.call m s1) as [s3 | e] eqn:H3.
  2: { injection H1 as <-. vm_compute in H3. discriminate H3. }
  exists s1, s2, s3. do 3 (split; [reflexivity || assumption |]).
  exact (proj2 (cells_rerun_after_inspection Dataset.call m m s s1 s2 s3
                  H1 H2 H3)).
Defined.

(** ** Which constants reach the image pipeline *)

Section NormalizationFacts.
Import Numpy Estimator Normalization.

Lemma nread_bind_name (name : string) (v : value) (s : state) :
  read name (bind_name name v s) = Ok v.
Proof. unfold read. cbn. rewrite lookup_insert_eq. reflexivity. Qed.

Lemma nread_bind_other (name other : string) (v : value) (s : state) :
  other <> name -> read name (bind_name other v s) = read name s.
Proof.
  intros Hne. unfold read. cbn. rewrite lookup_insert_ne by exact Hne.
  reflexivity.
Qed.

(** The last three cells, once the two names are bound. *)
Lemma pipeline_cells_complete (s : state) (means stds : value) :
  ns s !! "channel_means" = Some means ->
  ns s !! "channel_stds" = Some stds ->
  exists s',
    (s1 ← cell_config s; s2 ← cell_image_transforms s1; cell_show_batch s2)
    = Ok s'
    /\ ns s' !! "data_transforms"
       = Some (VImagePipeline (VInt 224) means stds)
    /\ out s' = out s ++ [ImshowInputs means stds].
Proof.
  intros Hm Hs. unfold cell_config. cbn [mbind result_bind].
  unfold cell_image_transforms. rewrite nread_bind_name.
  cbn [mbind result_bind].
  rewrite !(nread_bind_other _ "crop_size") by discriminate.
  unfold read at 1 2. rewrite Hm, Hs. cbn [mbind result_bind].
  unfold cell_show_batch.
  rewrite !(nread_bind_other _ "data_transforms") by discriminate.
  rewrite !(nread_bind_other _ "crop_size") by discriminate.
  unfold read. rewrite Hm, Hs. cbn [mbind result_bind].
  eexists. split; [reflexivity |]. cbn. rewrite lookup_insert_eq. auto.
Qed.

(** X13: in a run that completes with the cell of precomputed literals,
    the image pipeline's Normalize and [imshow] hold those literals whether
    the statistics cell was run or skipped and whatever images it saw: the
    estimate, when there is one, is printed and then overwritten. *)
Theorem precomputed_constants_override_estimate
  (estimate : option (list image)) (s : state) :
  run estimate true = Ok s ->
  ns s !! "data_transforms"
  = Some (VImagePipeline (VInt 224) (VTuple precomputed_means)
            (VTuple precomputed_stds))
  /\ match estimate with
     | None =>
         out s = [ImshowInputs (VTuple precomputed_means)
                    (VTuple precomputed_stds)]
     | Some imgs =>
         exists channel_means channel_stds,
           find_means_stds imgs = Ok (channel_means, channel_stds)
           /\ out s = [PrintMeans (VArray channel_means);
                       PrintStds (VArray channel_stds);
                       ImshowInputs (VTuple precomputed_means)
                         (VTuple precomputed_stds)]
     end.
Proof.
  unfold run. destruct estimate as [imgs |].
  - unfold cell_estimate.
    destruct (find_means_stds imgs) as [[cm cs] | e];
      cbn [mbind result_bind]; [| discriminate].
    rewrite (nread_bind_other "channel_means" "channel_stds")
      by discriminate.
    rewrite nread_bind_name.
    cbn [mbind result_bind]. rewrite nread_bind_name.
    cbn [mbind result_bind]. unfold cell_precomputed.
    cbn [mbind result_bind].
    match goal with
    | |- context [cell_config ?s0] =>
        destruct (pipeline_cells_complete s0 (VTuple precomputed_means)
                    (VTuple precomputed_stds))
          as (s' & Hrun & Hdt & Ho);
        [cbn; through_bindings; reflexivity
        | cbn; through_bindings; reflexivity |]
    end.
    rewrite Hrun. intros [= <-]. split; [exact Hdt |].
    exists cm, cs. split; [reflexivity | exact Ho].
  - cbn [mbind result_bind]. unfold cell_precomputed.
    cbn [mbind result_bind].
    match goal with
    | |- context [cell_config ?s0] =>
        destruct (pipeline_cells_complete s0 (VTuple precomputed_means)
                    (VTuple precomputed_stds))
          as (s' & Hrun & Hdt & Ho);
        [cbn; through_bindings; reflexivity
        | cbn; through_bindings; reflexivity |]
    end.
    rewrite Hrun. intros [= <-]. split; [exact Hdt | exact Ho].
Qed.

(** X14: when the cell of literals is skipped, the image pipeline is built
    from the arrays the statistics cell returned, three entries each; when
    both cells are skipped the transforms cell stops on the unbound
    [channel_means]. *)
Theorem without_precomputed_constants (imgs : list image) :
  run None false = Raise NameError
  /\ match find_means_stds imgs with
     | Ok (channel_means, channel_stds) =>
         exists s,
           run (Some imgs) false = Ok s
           /\ ns s !! "data_transforms"
              = Some (VImagePipeline (VInt 224) (VArray channel_means)
                        (VArray channel_stds))
           /\ length channel_means = 3 /\ length channel_stds = 3
     | Raise e => run (Some imgs) false = Raise e
     end.
Proof.
  split; [reflexivity |]. unfold run, cell_estimate.
  pose proof (find_means_stds_aggregate imgs) as Hagg.
  destruct (find_means_stds imgs) as [[cm cs] | e];
    cbn [mbind result_bind]; [| reflexivity].
  rewrite (nread_bind_other "channel_means" "channel_stds") by discriminate.
  rewrite nread_bind_name.
  cbn [mbind result_bind]. rewrite nread_bind_name. cbn [mbind result_bind].
  match goal with
  | |- context [cell_config ?s0] =>
      destruct (pipeline_cells_complete s0 (VArray cm) (VArray cs))
        as (s' & Hrun & Hdt & Ho);
      [cbn; through_bindings; reflexivity
      | cbn; through_bindings; reflexivity |]
  end.
  exists s'. split; [exact Hrun |]. split; [exact Hdt |].
  destruct (forallb broadcastable imgs); [| discriminate Hagg].
  rewrite aggregate_columns in Hagg. injection Hagg as -> ->.
  split; reflexivity.
Qed.

Local Open Scope R_scope.

(** X15: the precomputed constants are on the 0..255 scale of the decoded
    files, the tensor that Normalize receives is on the 0..1 scale of
    ToTensor.  For every byte value and each of the three channels the
    image pipeline therefore yields a value between -19 and -9: never
    positive, never near zero. *)
Theorem image_pipeline_below_zero (k : nat) (b : Z) :
  (k < 3)%nat ->
  (0 <= b <= 255)%Z ->
  -19 < image_pipeline precomputed_means precomputed_stds k b < -9.
Proof.
  intros Hk Hb. unfold image_pipeline, normalize, to_tensor.
  assert (Hb0 : 0 <= IZR b) by (apply IZR_le; lia).
  assert (Hb1 : IZR b <= 255) by (apply IZR_le; lia).
  assert (Hx : 0 <= IZR b / 255 <= 1).
  { split.
    - apply Rmult_le_reg_r with 255; [lra |].
      unfold Rdiv. rewrite Rmult_assoc, Rinv_l by lra. lra.
    - apply Rmult_le_reg_r with 255; [lra |].
      unfold Rdiv. rewrite Rmult_assoc, Rinv_l by lra. lra. }
  set (x := IZR b / 255) in *.
  unfold precomputed_means, precomputed_stds.
  destruct k as [| [| [| k]]]; [| | | lia]; cbn [nth]; split.
  all: match goal with
       | |- _ < (_ - _) / ?sd =>
           apply Rmult_lt_reg_r with sd; [lra |];
           unfold Rdiv; rewrite Rmult_assoc, Rinv_l by lra; lra
       | |- (_ - _) / ?sd < _ =>
           apply Rmult_lt_reg_r with sd; [lra |];
           unfold Rdiv; rewrite Rmult_assoc, Rinv_l by lra; lra
       end.
Qed.

Lemma image_pipeline_below_zero_witness :
  -19 < image_pipeline precomputed_means precomputed_stds 1 255 < -9.
Proof.
  apply (image_pipeline_below_zero 1 255); lia.
Defined.

End NormalizationFacts.

Lemma precomputed_constants_override_estimate_witness :
  let imgs := [Numpy.Gray 1 1 (fun _ _ => 5%Z)] in
  exists s channel_means channel_stds,
    Normalization.run (Some imgs) true = Ok s
    /\ Normalization.ns s !! "data_transforms"
       = Some (Normalization.VImagePipeline (Normalization.VInt 224)
                 (Normalization.VTuple Normalization.precomputed_means)
                 (Normalization.VTuple Normalization.precomputed_stds))
    /\ Estimator.find_means_stds imgs = Ok (channel_means, channel_stds)
    /\ Normalization.out s
       = [Normalization.PrintMeans (Normalization.VArray channel_means);
          Normalization.PrintStds (Normalization.VArray channel_stds);
          Normalization.ImshowInputs
            (Normalization.VTuple Normalization.precomputed_means)
            (Normalization.VTuple Normalization.precomputed_stds)].
Proof.
  intros imgs.
  destruct (Normalization.run (Some imgs) true) as [s | e] eqn:Hrun;
    [| cbv [Normalization.run Normalization.cell_estimate imgs] in Hrun;
       cbn in Hrun; discriminate Hrun].
  destruct (precomputed_constants_override_estimate (Some imgs) s Hrun)
    as (Hdt & cm & cs & Hest & Ho).
  exists s, cm, cs. split; [reflexivity |].
  split; [exact Hdt |]. split; [exact Hest | exact Ho].
Defined.
